(** * cineflow_tg_bot: the fetch cache, the query classifier and the
      search and selection glue of [bot.js]

    Strings are modelled the way JavaScript has them: finite sequences of
    UTF-16 code units.  The [CACHE] map is a [gmap] keyed by such
    strings.  The body of an [async] function is written in a small
    monad of statements with state, [return] and exceptions, over a
    world made of the cache, the wall clock, the log of the HTTP
    requests issued so far and the messages sent to the chat.  The HTTP
    client is an oracle: it decides, from the requests issued so far,
    how long a request takes and whether it succeeds.

    One call is followed from its entry to its completion; no other
    handler touches the cache while the call waits for the network. *)

From Stdlib Require Import ZArith NArith String Ascii Lia DecimalString.
From stdpp Require Import gmap list.

(* ===================================================================== *)
(** ** JavaScript strings *)
(* ===================================================================== *)

(** A JavaScript string: the list of its UTF-16 code units. *)
Abbreviation JsString := (list N).

(** An ASCII literal as a JavaScript string (one code unit per byte). *)
Definition u (s : string) : JsString :=
  List.map N_of_ascii (list_ascii_of_string s).
Arguments u s%_string.

(** The two code units of a character outside the basic plane. *)
Definition astral (cp : N) : JsString :=
  [(0xD800 + (cp - 0x10000) / 0x400)%N; (0xDC00 + (cp - 0x10000) mod 0x400)%N].

Definition JsString_eqb (a b : JsString) : bool := bool_decide (a = b).

(** [String.prototype.startsWith] *)
Fixpoint startsWith (s p : JsString) : bool :=
  match p, s with
  | [], _ => true
  | x :: p', y :: s' => N.eqb x y && startsWith s' p'
  | _ :: _, [] => false
  end.

(** White space and line terminators, the code units [trim] strips. *)
Definition isWhiteSpace (c : N) : bool :=
  existsb (N.eqb c)
    [0x09; 0x0A; 0x0B; 0x0C; 0x0D; 0x20; 0xA0; 0x1680; 0x2028; 0x2029;
     0x202F; 0x205F; 0x3000; 0xFEFF]%N
  || (N.leb 0x2000 c && N.leb c 0x200A).

Fixpoint trimStart (s : JsString) : JsString :=
  match s with
  | c :: t => if isWhiteSpace c then trimStart t else s
  | [] => []
  end.

Definition trimEnd (s : JsString) : JsString := rev (trimStart (rev s)).

(** [String.prototype.trim] *)
Definition trim (s : JsString) : JsString := trimEnd (trimStart s).

(** [String.prototype.slice(start, end)] and [Array.prototype.slice]:
    negative indices count from the end, both are clamped to the
    length, and an empty range gives the empty sequence. *)
Definition slice_index (len i : Z) : Z :=
  if (i <? 0)%Z then Z.max (len + i) 0 else Z.min i len.

Definition slice {A} (l : list A) (start stop : Z) : list A :=
  let len := Z.of_nat (length l) in
  let from := slice_index len start in
  let to := slice_index len stop in
  take (Z.to_nat (to - from)) (drop (Z.to_nat from) l).

(** [String.prototype.split] with a one-code-unit separator. *)
Fixpoint split (sep : N) (s : JsString) : list JsString :=
  match s with
  | [] => [[]]
  | c :: t =>
      if N.eqb c sep then [] :: split sep t
      else match split sep t with
           | w :: ws => (c :: w) :: ws
           | [] => [[c]]
           end
  end.

(* --------------------------------------------------------------------- *)
(** *** Regular expressions of the form [/w1|w2|...|wn/i]

    Every pattern of the program is an alternation of ASCII words with
    the [i] flag and without the [u] flag.  Without [u], a code unit above
    127 never canonicalizes to an ASCII letter, so on these patterns
    case-insensitive comparison is ASCII case folding. *)
(* --------------------------------------------------------------------- *)

Definition canonicalize (c : N) : N :=
  if N.leb 97 c && N.leb c 122 then (c - 32)%N else c.

(** Match the word [pat] at the start of [text], ignoring case. *)
Fixpoint match_word (pat text : JsString) : bool :=
  match pat, text with
  | [], _ => true
  | p :: pat', c :: text' =>
      N.eqb (canonicalize p) (canonicalize c) && match_word pat' text'
  | _ :: _, [] => false
  end.

(** Ordered choice: the length of the first alternative that matches at
    the start of [text]. *)
Fixpoint match_alt (alts : list JsString) (text : JsString) : option nat :=
  match alts with
  | [] => None
  | w :: alts' =>
      if match_word w text then Some (length w) else match_alt alts' text
  end.

(** [RegExp.prototype.test]: is there a match at some position? *)
Fixpoint RegExp_test (alts : list JsString) (text : JsString) : bool :=
  match match_alt alts text with
  | Some _ => true
  | None =>
      match text with
      | [] => false
      | _ :: t => RegExp_test alts t
      end
  end.

(** [text.replace(/.../gi, '')]: one pass from left to right; a match of
    [n] code units is dropped and the scan resumes right after it.
    [skip] counts the code units of the current match still to drop. *)
Fixpoint replace_go (alts : list JsString) (skip : nat) (text : JsString)
  : JsString :=
  match text with
  | [] => []
  | c :: t =>
      match skip with
      | S k => replace_go alts k t
      | O =>
          match match_alt alts text with
          | Some (S k) => replace_go alts k t
          | _ => c :: replace_go alts 0 t
          end
      end
  end.

Definition replace_all (alts : list JsString) (text : JsString) : JsString :=
  replace_go alts 0 text.

(* --------------------------------------------------------------------- *)
(** *** [encodeURIComponent] and number printing *)
(* --------------------------------------------------------------------- *)

(** The characters [encodeURIComponent] leaves alone: ASCII letters and
    digits and [- _ . ! ~ * ' ( )]. *)
Definition uriUnreserved (c : N) : bool :=
  (N.leb 65 c && N.leb c 90) || (N.leb 97 c && N.leb c 122)
  || (N.leb 48 c && N.leb c 57)
  || existsb (N.eqb c) [45; 95; 46; 33; 126; 42; 39; 40; 41]%N.

Definition hexDigit (d : N) : N := if N.ltb d 10 then (48 + d)%N else (55 + d)%N.

Definition percent (byte : N) : JsString :=
  [37%N; hexDigit (byte / 16); hexDigit (byte mod 16)].

Definition utf8 (cp : N) : list N :=
  if N.ltb cp 0x80 then [cp]
  else if N.ltb cp 0x800 then [0xC0 + cp / 64; 0x80 + cp mod 64]%N
  else if N.ltb cp 0x10000 then
    [0xE0 + cp / 4096; 0x80 + (cp / 64) mod 64; 0x80 + cp mod 64]%N
  else
    [0xF0 + cp / 262144; 0x80 + (cp / 4096) mod 64; 0x80 + (cp / 64) mod 64;
     0x80 + cp mod 64]%N.

Definition isHighSurrogate (c : N) : bool := N.leb 0xD800 c && N.leb c 0xDBFF.
Definition isLowSurrogate (c : N) : bool := N.leb 0xDC00 c && N.leb c 0xDFFF.

Definition percentEncode (cp : N) : JsString := concat (List.map percent (utf8 cp)).

(** [encodeURIComponent]: [None] is the [URIError] thrown on a surrogate
    that has no partner. *)
Fixpoint encodeURIComponent (s : JsString) : option JsString :=
  match s with
  | [] => Some []
  | c :: rest =>
      if uriUnreserved c then cons c <$> encodeURIComponent rest
      else if isLowSurrogate c then None
      else if isHighSurrogate c then
        match rest with
        | d :: rest' =>
            if isLowSurrogate d then
              app (percentEncode ((c - 0xD800) * 0x400 + (d - 0xDC00) + 0x10000)%N)
                <$> encodeURIComponent rest'
            else None
        | [] => None
        end
      else app (percentEncode c) <$> encodeURIComponent rest
  end.

(** A string without unpaired surrogates. *)
Fixpoint wellFormed (s : JsString) : bool :=
  match s with
  | [] => true
  | c :: rest =>
      if isLowSurrogate c then false
      else if isHighSurrogate c then
        match rest with
        | d :: rest' => isLowSurrogate d && wellFormed rest'
        | [] => false
        end
      else wellFormed rest
  end.

(** [String(n)] for an integer-valued number: its decimal digits. *)
Definition Number_toString (n : Z) : JsString :=
  u (NilZero.string_of_int (Z.to_int n)).

(** A value that may be [undefined], as a template literal prints it. *)
Definition template (v : option JsString) : JsString :=
  match v with
  | Some s => s
  | None => u "undefined"
  end.

(** [a || b] on values that are strings or [undefined]: the empty string
    and [undefined] are the falsy ones. *)
Definition js_or (a b : option JsString) : option JsString :=
  match a with
  | Some (_ :: _) => a
  | _ => b
  end.

(* ===================================================================== *)
(** ** The data the program sees *)
(* ===================================================================== *)

(** One entry of the search API's [results] array: the fields the
    program reads.  A field that may be missing is an [option]. *)
Module Result.
Record t := mk {
  id : Z;
  media_type : option JsString;
  title : option JsString;
  name : option JsString;
  release_date : option JsString;
  first_air_date : option JsString
}.
End Result.

(** [res.data], the decoded body: only [results] is read by the code
    modelled here. *)
Record Body := { results : option (list Result.t) }.

(** The response object [axios.get] resolves to. *)
Record Response := { data : option Body }.

(** A cache entry [{ time, data }]. *)
Module Entry.
Record t := mk { time : Z; data : Response }.
End Entry.

(** [process.env]: a variable that is not set reads as [undefined]. *)
Record Env := {
  PROXY_API_URL : option JsString;
  TMDB_API_KEY : option JsString
}.

(** One call of [axios.get(target, { timeout })]. *)
Record Request := { target : JsString; timeout : Z }.

(** What the network does with a request: how far the clock has moved
    when the promise settles, and the response ([None]: the promise
    rejects). *)
Record Outcome := { elapsed : Z; reply : option Response }.

(** The HTTP client and everything behind it: the outcome of a request
    may depend on all the requests issued before it. *)
Definition Network := list Request -> Request -> Outcome.

(** An incoming chat message: [msg.text] and [msg.chat.id]. *)
Module Msg.
Record t := mk { text : option JsString; chat_id : Z }.
End Msg.

(** An inline-keyboard button and a [bot.sendMessage] call. *)
Record Button := {
  text : JsString;
  callback_data : option JsString;
  url : option JsString
}.

Record Message := {
  chat : Z;
  body : JsString;
  parse_mode : option JsString;
  inline_keyboard : option (list (list Button))
}.

(** The process state: the [CACHE] map, the clock [Date.now()] reads,
    the requests issued so far (oldest first) and the messages sent. *)
Record World := {
  CACHE : gmap JsString Entry.t;
  clock : Z;
  requests : list Request;
  outbox : list Message
}.

Definition CACHE_TTL : Z := 10 * 60 * 1000.

(* ===================================================================== *)
(** ** Statements with state, [return] and exceptions *)
(* ===================================================================== *)

Inductive Error := AxiosError | URIError | TypeError.

(** How a statement completes: normally with a value, by [return v], or
    by a throw. *)
Inductive Completion (R A : Type) : Type :=
  | Normal (a : A)
  | Return (r : R)
  | Throw (e : Error).
Arguments Normal {R A} a.
Arguments Return {R A} r.
Arguments Throw {R A} e.

(** How a call completes (the promise an [async] function returns). *)
Inductive Settled (A : Type) : Type :=
  | Fulfilled (a : A)
  | Rejected (e : Error).
Arguments Fulfilled {A} a.
Arguments Rejected {A} e.

Definition Stmt (R A : Type) : Type := World -> Completion R A * World.
Definition Call (A : Type) : Type := World -> Settled A * World.

Definition pure {R A} (a : A) : Stmt R A := fun w => (Normal a, w).

Definition bind {R A B} (m : Stmt R A) (k : A -> Stmt R B) : Stmt R B :=
  fun w =>
    match m w with
    | (Normal a, w') => k a w'
    | (Return r, w') => (Return r, w')
    | (Throw e, w') => (Throw e, w')
    end.

Definition return_ {R A} (r : R) : Stmt R A := fun w => (Return r, w).
Definition throw {R A} (e : Error) : Stmt R A := fun w => (Throw e, w).

(** [try { body } catch { handler }] *)
Definition try_catch {R A} (body handler : Stmt R A) : Stmt R A :=
  fun w =>
    match body w with
    | (Throw _, w') => handler w'
    | done => done
    end.

(** A function body run as a call: [return v] fulfils with [v]. *)
Definition function {R} (body : Stmt R R) : Call R :=
  fun w =>
    match body w with
    | (Normal r, w') => (Fulfilled r, w')
    | (Return r, w') => (Fulfilled r, w')
    | (Throw e, w') => (Rejected e, w')
    end.

(** [await call] inside a body. *)
Definition await {R A} (c : Call A) : Stmt R A :=
  fun w =>
    match c w with
    | (Fulfilled a, w') => (Normal a, w')
    | (Rejected e, w') => (Throw e, w')
    end.

Declare Scope stmt_scope.
Delimit Scope stmt_scope with stmt.
Notation "x <- m ;; k" := (bind m (fun x => k))
  (at level 100, m at next level, right associativity) : stmt_scope.
Notation "m ;; k" := (bind m (fun _ => k))
  (at level 100, right associativity) : stmt_scope.
Open Scope stmt_scope.

(** The primitives the code calls. *)
Definition Date_now {R} : Stmt R Z := fun w => (Normal (clock w), w).

Definition CACHE_has {R} (key : JsString) : Stmt R bool :=
  fun w => (Normal (bool_decide (is_Some (CACHE w !! key))), w).

(** [const { time, data } = CACHE.get(key)]: destructuring [undefined]
    throws. *)
Definition CACHE_get {R} (key : JsString) : Stmt R Entry.t :=
  fun w =>
    match CACHE w !! key with
    | Some e => (Normal e, w)
    | None => (Throw TypeError, w)
    end.

Definition with_CACHE (f : gmap JsString Entry.t -> gmap JsString Entry.t)
    (w : World) : World :=
  {| CACHE := f (CACHE w); clock := clock w; requests := requests w;
     outbox := outbox w |}.

Definition CACHE_delete {R} (key : JsString) : Stmt R unit :=
  fun w => (Normal tt, with_CACHE (delete key) w).

Definition CACHE_set {R} (key : JsString) (e : Entry.t) : Stmt R unit :=
  fun w => (Normal tt, with_CACHE (insert key e) w).

(** [axios.get]: the request is logged, the clock moves, and the promise
    settles as the network decides. *)
Definition axios_get (net : Network) (req : Request) : Call Response :=
  fun w =>
    let o := net (requests w) req in
    let w' := {| CACHE := CACHE w; clock := clock w + elapsed o;
                 requests := requests w ++ [req]; outbox := outbox w |} in
    match reply o with
    | Some res => (Fulfilled res, w')
    | None => (Rejected AxiosError, w')
    end.

(** A built-in that may throw, used as an expression. *)
Definition eval {R A} (e : Error) (v : option A) : Stmt R A :=
  match v with
  | Some a => pure a
  | None => throw e
  end.

Definition bot_sendMessage {R} (m : Message) : Stmt R unit :=
  fun w => (Normal tt,
            {| CACHE := CACHE w; clock := clock w; requests := requests w;
               outbox := outbox w ++ [m] |}).

(* ===================================================================== *)
(** ** The bot *)
(* ===================================================================== *)

Section Bot.

(** The two things the code reaches for globally: [axios] with the
    network behind it, and [process.env]. *)
Variable net : Network.
Variable env : Env.

(** *** FAST API *)

Definition fastApi (url : JsString) : Call Response :=
  function (
    now <- Date_now ;;
    has <- CACHE_has url ;;
    (if has : bool then
       e <- CACHE_get url ;;
       if (now - Entry.time e <? CACHE_TTL)%Z then return_ (Entry.data e)
       else CACHE_delete url
     else pure tt) ;;
    try_catch
      (res <- await (axios_get net {| target := url; timeout := 5000 |}) ;;
       CACHE_set url (Entry.mk now res) ;;
       return_ res)
      (enc <- eval URIError (encodeURIComponent url) ;;
       let proxyUrl := template (PROXY_API_URL env) ++ enc in
       res <- await (axios_get net {| target := proxyUrl; timeout := 8000 |}) ;;
       CACHE_set url (Entry.mk now res) ;;
       return_ res)).

(** *** HELPERS *)

Definition movie_pattern : list JsString := [u "movie"; u "film"].
Definition tv_pattern : list JsString := [u "tv"; u "series"; u "show"].
Definition clean_pattern : list JsString :=
  [u "movie"; u "film"; u "tv"; u "series"; u "show"; u "link"; u "watch";
   u "download"].

Definition hasMovieKeyword (text : JsString) : bool :=
  RegExp_test movie_pattern text.

Definition hasTvKeyword (text : JsString) : bool :=
  RegExp_test tv_pattern text.

Definition cleanQuery (text : JsString) : JsString :=
  trim (replace_all clean_pattern text).

(** The endpoint decision of the message handler (lines 97-99): one
    variable, initialised to [multi], and two independent updates. *)
Definition endpoint (rawText : JsString) : JsString :=
  let endpoint := u "multi" in
  let endpoint :=
    if hasMovieKeyword rawText && negb (hasTvKeyword rawText)
    then u "movie" else endpoint in
  let endpoint :=
    if hasTvKeyword rawText && negb (hasMovieKeyword rawText)
    then u "tv" else endpoint in
  endpoint.

(** *** SEARCH *)

Definition searchUrl (endpoint encodedQuery : JsString) : JsString :=
  u "https://api.themoviedb.org/3/search/" ++ endpoint ++ u "?query="
  ++ encodedQuery ++ u "&api_key=" ++ template (TMDB_API_KEY env).

Definition googleUrl (encodedText : JsString) : JsString :=
  u "https://www.google.com/search?q=" ++ encodedText.

(** [!res.data?.results?.length] *)
Definition noResults (res : Response) : bool :=
  match data res with
  | Some b =>
      match results b with
      | Some (_ :: _) => false
      | _ => true
      end
  | None => true
  end.

(** The array [res.data.results] once [noResults] is false. *)
Definition resultsOf (res : Response) : list Result.t :=
  match data res with
  | Some b => default [] (results b)
  | None => []
  end.

(** [r.media_type || endpoint] *)
Definition typeOf (endpoint : JsString) (r : Result.t) : JsString :=
  template (js_or (Result.media_type r) (Some endpoint)).

(** The [year] of lines 135-138. *)
Definition yearOf (type : JsString) (r : Result.t) : option JsString :=
  if JsString_eqb type (u "movie")
  then (fun d => slice d 0 4) <$> Result.release_date r
  else (fun d => slice d 0 4) <$> Result.first_air_date r.

(** The one-button row built for a result (lines 133-144). *)
Definition buttonRow (endpoint : JsString) (r : Result.t) : list Button :=
  let type := typeOf endpoint r in
  let year := yearOf type r in
  [{| text :=
        (if JsString_eqb type (u "movie") then astral 0x1F3AC else astral 0x1F4FA)
        ++ u " " ++ template (js_or (Result.title r) (Result.name r))
        ++ u " (" ++ template (js_or year (Some (u "N/A"))) ++ u ")";
      callback_data :=
        Some (u "select_" ++ type ++ u "_" ++ Number_toString (Result.id r));
      url := None |}].

Definition notPerson (r : Result.t) : bool :=
  negb (bool_decide (Result.media_type r = Some (u "person"))).

Definition buttons (endpoint : JsString) (results : list Result.t)
  : list (list Button) :=
  List.map (buttonRow endpoint) (slice (List.filter notPerson results) 0 10).

Definition msgEmptyQuery : JsString :=
  [0x274C%N] ++ u " Please enter a movie or TV name".
Definition msgBusy : JsString := [0x26A0; 0xFE0F]%N ++ u " TMDB busy, try again".
Definition msgNoResults : JsString :=
  [0x274C%N] ++ u " *No results found*" ++ [10; 10]%N ++ u "Try Google "
  ++ astral 0x1F447.
Definition msgResults (query : JsString) : JsString :=
  astral 0x1F50D ++ u " Results for *" ++ query ++ u "*".
Definition googleButton (link : JsString) : Button :=
  {| text := astral 0x1F50D ++ u " Search on Google"; callback_data := None;
     url := Some link |}.

(** The [message] handler. *)
Definition onMessage (msg : Msg.t) : Call unit :=
  function (
    match Msg.text msg with
    | None | Some [] => return_ tt
    | Some text =>
        if startsWith text (u "/") then return_ tt else
        let chatId := Msg.chat_id msg in
        let rawText := trim text in
        let query := cleanQuery rawText in
        match query with
        | [] =>
            bot_sendMessage
              {| chat := chatId; body := msgEmptyQuery; parse_mode := None;
                 inline_keyboard := None |} ;;
            return_ tt
        | _ :: _ =>
            let endpoint := endpoint rawText in
            res <- try_catch
                     (enc <- eval URIError (encodeURIComponent query) ;;
                      await (fastApi (searchUrl endpoint enc)))
                     (bot_sendMessage
                        {| chat := chatId; body := msgBusy; parse_mode := None;
                           inline_keyboard := None |} ;;
                      return_ tt) ;;
            if noResults res then
              enc <- eval URIError (encodeURIComponent rawText) ;;
              bot_sendMessage
                {| chat := chatId; body := msgNoResults;
                   parse_mode := Some (u "Markdown");
                   inline_keyboard := Some [[googleButton (googleUrl enc)]] |} ;;
              return_ tt
            else
              let buttons := buttons endpoint (resultsOf res) in
              bot_sendMessage
                {| chat := chatId; body := msgResults query;
                   parse_mode := Some (u "Markdown");
                   inline_keyboard := Some buttons |}
        end
    end).

(** *** SELECT *)

(** The detail URL of line 167 for a kind and an id. *)
Definition detailUrl (type id : option JsString) : JsString :=
  u "https://api.themoviedb.org/3/" ++ template type ++ u "/" ++ template id
  ++ u "?api_key=" ++ template (TMDB_API_KEY env).

(** Lines 157-167 of the [callback_query] handler: the URL it asks
    [fastApi] for, or [None] when the data is not a selection token and
    the handler returns at once.  [const [, type, id] = data.split('_')]
    takes the second and third pieces, [undefined] when there are
    fewer. *)
Definition selectedUrl (data : JsString) : option JsString :=
  if negb (startsWith data (u "select_")) then None
  else
    let parts := split 95 data in
    let type := parts !! 1%nat in
    let id := parts !! 2%nat in
    Some (detailUrl type id).

End Bot.

(* ===================================================================== *)
(** ** Vocabulary of the statements *)
(* ===================================================================== *)

(** *** The cache *)

Definition primaryRequest (url : JsString) : Request :=
  {| target := url; timeout := 5000 |}.

Definition fallbackRequest (env : Env) (enc : JsString) : Request :=
  {| target := template (PROXY_API_URL env) ++ enc; timeout := 8000 |}.

(** An entry is fresh at [now] when the test of line 17 passes. *)
Definition fresh (now : Z) (e : Entry.t) : Prop :=
  (now - Entry.time e < CACHE_TTL)%Z.

(** No entry of [url] can be served at the clock of [w]. *)
Definition miss (url : JsString) (w : World) : Prop :=
  forall e, CACHE w !! url = Some e -> ~ fresh (clock w) e.

(** How long an entry can still be served, seen from the instant [t]:
    it is served while [t - time < CACHE_TTL]. *)
Definition remaining (e : Entry.t) (t : Z) : Z :=
  (Entry.time e + CACHE_TTL - t)%Z.

(** *** Keywords in a text *)

(** [w] is the word [a] up to the case of its ASCII letters. *)
Definition sameWord (a w : JsString) : Prop :=
  List.map canonicalize w = List.map canonicalize a.

(** One of [words] starts the text, in any letter case. *)
Definition startsWithWord (words : list JsString) (text : JsString) : Prop :=
  exists a w post, a ∈ words /\ sameWord a w /\ text = w ++ post.

(** The text contains one of [words] somewhere, in any letter case: what
    it means for the text to match [/w1|...|wn/i]. *)
Definition mentions (words : list JsString) (text : JsString) : Prop :=
  exists pre post, text = pre ++ post /\ startsWithWord words post.

(** [stripped words text out]: [out] is [text] without the occurrences of
    [words] met by one scan from left to right.  At each position either
    a word starts there, in any letter case, and it is dropped whole
    (the scan resumes right after it), or no word starts there and the
    code unit is kept. *)
Inductive stripped (words : list JsString) : JsString -> JsString -> Prop :=
  | stripped_nil : stripped words [] []
  | stripped_drop a w text out :
      a ∈ words -> sameWord a w -> w <> [] ->
      stripped words text out ->
      stripped words (w ++ text) out
  | stripped_keep c text out :
      ~ startsWithWord words (c :: text) ->
      stripped words text out ->
      stripped words (c :: text) (c :: out).

(** No two occurrences of words of the list can start at the same place
    with different extents. *)
Definition unambiguous (words : list JsString) : Prop :=
  forall a1 a2 w1 w2 t1 t2,
    a1 ∈ words -> a2 ∈ words -> sameWord a1 w1 -> sameWord a2 w2 ->
    w1 ++ t1 = w2 ++ t2 -> w1 = w2.

(** A string that neither starts nor ends with white space. *)
Definition trimmed (s : JsString) : Prop :=
  (forall c t, s = c :: t -> isWhiteSpace c = false) /\
  (forall t c, s = t ++ [c] -> isWhiteSpace c = false).

Definition allWhiteSpace (s : JsString) : Prop :=
  Forall (fun c => isWhiteSpace c = true) s.

(** *** Labels and tokens, in the words of the specification *)



Definition tokenSpec (kind id : JsString) : JsString :=
  u "select_" ++ kind ++ u "_" ++ id.

(* ===================================================================== *)
(** ** Sample inputs *)
(* ===================================================================== *)

Definition sampleEnv : Env :=
  {| PROXY_API_URL := Some (u "https://proxy.example/?u=");
     TMDB_API_KEY := Some (u "K") |}.

Definition sampleUrl : JsString :=
  u "https://api.themoviedb.org/3/movie/603?api_key=K".

Definition sampleMovie : Result.t :=
  Result.mk 603 (Some (u "movie")) (Some (u "The Matrix")) None
    (Some (u "1999-03-30")) None.

Definition sampleShow : Result.t :=
  Result.mk 1396 (Some (u "tv")) None (Some (u "Breaking Bad")) None
    (Some (u "2008-01-20")).

Definition samplePerson : Result.t :=
  Result.mk 6384 (Some (u "person")) None (Some (u "Keanu Reeves")) None None.

(** An entry without [media_type], as the movie and tv searches return
    them, and with an empty date. *)
Definition sampleUntagged : Result.t :=
  Result.mk 5 None (Some (u "Four Rooms")) None (Some []) None.


Definition oldResponse : Response := {| data := None |}.
Definition newResponse : Response := {| data := Some {| results := None |} |}.
Definition personsResponse : Response :=
  {| data := Some {| results := Some [samplePerson] |} |}.

(** Every request fails after five seconds. *)
Definition deadNetwork : Network :=
  fun _ _ => {| elapsed := 5000; reply := None |}.

(** Direct requests time out; the proxy answers in 1.2 seconds. *)
Definition proxyOnlyNetwork : Network :=
  fun _ req =>
    if (timeout req =? 5000)%Z then {| elapsed := 5000; reply := None |}
    else {| elapsed := 1200; reply := Some newResponse |}.

(** Every request is answered in 0.3 seconds. *)
Definition liveNetwork : Network :=
  fun _ _ => {| elapsed := 300; reply := Some newResponse |}.

(** The search API answers every request with one person and nothing
    else. *)
Definition personsNetwork : Network :=
  fun _ _ => {| elapsed := 300; reply := Some personsResponse |}.

(** A world whose cache holds one entry for [sampleUrl], stored at
    instant 1000, seen [age] milliseconds later. *)
Definition worldAged (age : Z) : World :=
  {| CACHE := {[ sampleUrl := Entry.mk 1000 oldResponse ]};
     clock := 1000 + age; requests := []; outbox := [] |}.

Definition emptyWorld : World :=
  {| CACHE := ∅; clock := 1000; requests := []; outbox := [] |}.

Definition sampleMsg : Msg.t := Msg.mk (Some (u " keanu ")) 42.

(* ===================================================================== *)
(** ** The chat transport and the selection handler *)
(* ===================================================================== *)

(** A call of the chat library.  [sendMessage] carries the message as the
    [message] handler builds it. *)
Inductive BotCall :=
  | answerCallbackQuery (query_id text : JsString)
  | sendMessage (m : Message)
  | deleteMessage (chat message_id : Z)
  | sendPhoto (chat : Z) (photo caption : JsString)
      (parse_mode : option JsString) (keyboard : list (list Button)).

(** The chat service: from the calls made so far and the call at hand,
    either the promise rejects ([None]) or it is fulfilled; for
    [sendMessage] the number is the [message_id] of the message sent. *)
Definition Transport := list BotCall -> BotCall -> option Z.

(** The state the selection handler runs in: the world of [fastApi] and
    the calls made to the chat library, oldest first. *)
Record Session := { world : World; transcript : list BotCall }.

(** What a promise of this layer can be rejected with: an error of the
    program or of the HTTP client, or a failure of the chat service. *)
Inductive Failure := JsError (e : Error) | TelegramError.

(** The fields the detail card reads from the decoded body.  The two
    fields that are only printed hold the text the template literal
    produces for them. *)
Module Detail.
Record t := mk {
  title : option JsString;
  name : option JsString;
  release_date : option JsString;
  first_air_date : option JsString;
  vote_average : option JsString;
  overview : option JsString;
  poster_path : option JsString
}.
End Detail.

(** A button press: [q.id], [q.data] and [q.message.chat.id]; the last
    two may be missing. *)
Module Query.
Record t := mk {
  id : JsString;
  data : option JsString;
  message_chat_id : option Z
}.
End Query.

Module Tg.

Inductive Completion (R A : Type) : Type :=
  | Normal (a : A)
  | Return (r : R)
  | Throw (f : Failure).
Arguments Normal {R A} a.
Arguments Return {R A} r.
Arguments Throw {R A} f.

Inductive Settled (A : Type) : Type :=
  | Fulfilled (a : A)
  | Rejected (f : Failure).
Arguments Fulfilled {A} a.
Arguments Rejected {A} f.

Definition Stmt (R A : Type) : Type := Session -> Completion R A * Session.
Definition Call (A : Type) : Type := Session -> Settled A * Session.

Definition pure {R A} (a : A) : Stmt R A := fun s => (Normal a, s).

Definition bind {R A B} (m : Stmt R A) (k : A -> Stmt R B) : Stmt R B :=
  fun s =>
    match m s with
    | (Normal a, s') => k a s'
    | (Return r, s') => (Return r, s')
    | (Throw f, s') => (Throw f, s')
    end.

Definition return_ {R A} (r : R) : Stmt R A := fun s => (Return r, s).

(** [try { body } catch { handler }] *)
Definition try_catch {R A} (body handler : Stmt R A) : Stmt R A :=
  fun s =>
    match body s with
    | (Throw _, s') => handler s'
    | done => done
    end.

Definition function {R} (body : Stmt R R) : Call R :=
  fun s =>
    match body s with
    | (Normal r, s') => (Fulfilled r, s')
    | (Return r, s') => (Fulfilled r, s')
    | (Throw f, s') => (Rejected f, s')
    end.

Definition await {R A} (c : Call A) : Stmt R A :=
  fun s =>
    match c s with
    | (Fulfilled a, s') => (Normal a, s')
    | (Rejected f, s') => (Throw f, s')
    end.

(** [promise.catch(() => {})]: the call with its rejection swallowed. *)
Definition catch_ignore {A} (c : Call A) : Call unit :=
  fun s =>
    match c s with
    | (_, s') => (Fulfilled tt, s')
    end.

(** A value that must be there: reading a property of [undefined]
    throws a [TypeError]. *)
Definition defined {R A} (v : option A) : Stmt R A :=
  fun s =>
    match v with
    | Some a => (Normal a, s)
    | None => (Throw (JsError TypeError), s)
    end.

End Tg.

(** A call of the world of [fastApi], run on the world of the session. *)
Definition onWorld {A} (c : Call A) : Tg.Call A :=
  fun s =>
    match c (world s) with
    | (Fulfilled a, w') =>
        (Tg.Fulfilled a, {| world := w'; transcript := transcript s |})
    | (Rejected e, w') =>
        (Tg.Rejected (JsError e), {| world := w'; transcript := transcript s |})
    end.

Declare Scope tg_scope.
Delimit Scope tg_scope with tg.
Notation "x <- m ;; k" := (Tg.bind m (fun x => k))
  (at level 100, m at next level, right associativity) : tg_scope.
Notation "m ;; k" := (Tg.bind m (fun _ => k))
  (at level 100, right associativity) : tg_scope.

(** The call is written to the transcript; a [sendMessage] is also put
    in the outbox of the world, as [bot_sendMessage] does. *)
Definition logCall (c : BotCall) (s : Session) : Session :=
  {| world :=
       match c with
       | sendMessage m => (@bot_sendMessage unit m (world s)).2
       | _ => world s
       end;
     transcript := transcript s ++ [c] |}.

(** A method of [bot], as a promise. *)
Definition bot (tg : Transport) (c : BotCall) : Tg.Call Z :=
  fun s =>
    match tg (transcript s) c with
    | Some n => (Tg.Fulfilled n, logCall c s)
    | None => (Tg.Rejected TelegramError, logCall c s)
    end.

(** A promise that is started and neither awaited nor returned: how it
    settles is not seen by the code that started it. *)
Definition start {R A} (c : Tg.Call A) : Tg.Stmt R unit :=
  fun s => (Tg.Normal tt, (c s).2).

(* --------------------------------------------------------------------- *)
(** *** SKELETON *)
(* --------------------------------------------------------------------- *)

Definition skeletonText : JsString :=
  astral 0x1F3AC ++ u " *Loading...*" ++ [10; 10]%N
  ++ replicate 16 0x2593%N ++ [10%N]
  ++ replicate 14 0x2593%N ++ [10%N]
  ++ replicate 12 0x2593%N.

(** The object [showSkeleton] returns: its one method. *)
Record Skeleton := { remove : Tg.Call unit }.

Definition showSkeleton (tg : Transport) (chatId : Z) : Tg.Call Skeleton :=
  Tg.function (
    msg <- Tg.await
             (bot tg (sendMessage
                        {| chat := chatId; body := skeletonText;
                           parse_mode := Some (u "Markdown");
                           inline_keyboard := None |})) ;;
    Tg.return_
      {| remove := Tg.catch_ignore (bot tg (deleteMessage chatId msg)) |})%tg.

(* --------------------------------------------------------------------- *)
(** *** SELECT, the whole handler *)
(* --------------------------------------------------------------------- *)

Definition msgFailed : JsString :=
  [0x26A0; 0xFE0F]%N ++ u " Failed to load details".

Definition photoUrl (m : Detail.t) : JsString :=
  u "https://image.tmdb.org/t/p/w500" ++ template (Detail.poster_path m).

Definition caption (m : Detail.t) : JsString :=
  astral 0x1F3AC ++ u " *"
  ++ template (js_or (Detail.title m) (Detail.name m))
  ++ u "* ("
  ++ slice (template (js_or (js_or (Detail.release_date m)
                                   (Detail.first_air_date m))
                            (Some [])))
       0 4
  ++ u ")" ++ [10%N]
  ++ [0x2B50%N] ++ u " " ++ template (Detail.vote_average m) ++ [10; 10]%N
  ++ template (Detail.overview m).

(** The row of three link buttons under the card. *)
Definition watchRow (type id : option JsString) : list Button :=
  [ {| text := [0x25B6; 0xFE0F]%N ++ u " Watch 1"; callback_data := None;
       url := Some (u "https://cineflow1.vercel.app/" ++ template type ++ u "/"
                    ++ template id) |};
    {| text := [0x25B6; 0xFE0F]%N ++ u " Watch 2"; callback_data := None;
       url := Some (u "https://cineflow-rose.vercel.app/" ++ template type
                    ++ u "/" ++ template id) |};
    {| text := astral 0x1F4E9 ++ u " download"; callback_data := None;
       url := Some (u "https://cineflow1.vercel.app/download/" ++ template type
                    ++ u "/" ++ template id) |} ].

Section Select.

Variable tg : Transport.
Variable net : Network.
Variable env : Env.

(** [Body] keeps only the [results] of a decoded body; the fields the
    card reads are a second view of the same decoded body. *)
Variable detailOf : Body -> Detail.t.

(** The [callback_query] handler. *)
Definition onCallbackQuery (q : Query.t) : Tg.Call unit :=
  Tg.function (
    chatId <- Tg.defined (Query.message_chat_id q) ;;
    qdata <- Tg.defined (Query.data q) ;;
    if negb (startsWith qdata (u "select_")) then Tg.return_ tt else
    let parts := split 95 qdata in
    let type := parts !! 1%nat in
    let id := parts !! 2%nat in
    Tg.await (bot tg (answerCallbackQuery (Query.id q) (u "Loading..."))) ;;
    skeleton <- Tg.await (showSkeleton tg chatId) ;;
    res <- Tg.try_catch
             (Tg.await (onWorld (fastApi net env (detailUrl env type id))))
             (Tg.await (remove skeleton) ;;
              Tg.await (bot tg (sendMessage
                                  {| chat := chatId; body := msgFailed;
                                     parse_mode := None;
                                     inline_keyboard := None |})) ;;
              Tg.return_ tt) ;;
    Tg.await (remove skeleton) ;;
    m <- Tg.defined (detailOf <$> data res) ;;
    start (bot tg (sendPhoto chatId (photoUrl m) (caption m)
                     (Some (u "Markdown")) [watchRow type id])))%tg.

End Select.

(** *** Sample inputs of the selection handler *)

(** The chat service accepts every call; messages get the id 77. *)
Definition goodTransport : Transport := fun _ _ => Some 77%Z.

(** The chat service accepts everything but the deletion of messages. *)
Definition noDeleteTransport : Transport :=
  fun _ c =>
    match c with
    | deleteMessage _ _ => None
    | _ => Some 77%Z
    end.

(** The chat service rejects every call. *)
Definition downTransport : Transport := fun _ _ => None.

Definition matrixDetail : Detail.t :=
  Detail.mk (Some (u "The Matrix")) None (Some (u "1999-03-30")) None
    (Some (u "8.2")) (Some (u "A hacker learns the truth."))
    (Some (u "/matrix.jpg")).

Definition sampleDetailOf : Body -> Detail.t := fun _ => matrixDetail.

Definition sampleQuery : Query.t :=
  Query.mk (u "q1") (Some (u "select_movie_603")) (Some 42%Z).

Definition emptySession : Session :=
  {| world := emptyWorld; transcript := [] |}.

(** *** Vocabulary of the further statements *)

(** An ASCII letter. *)
Definition isLetter (c : N) : bool :=
  N.leb 65 (canonicalize c) && N.leb (canonicalize c) 90.

(** Every word of the list is a non-empty word of ASCII letters. *)
Definition wordsOfLetters (words : list JsString) : Prop :=
  Forall (fun a => a <> [] /\ Forall (fun p => isLetter p = true) a) words.

(** The world after one more message has been handed to the chat
    library. *)
Definition withMessage (m : Message) (w : World) : World :=
  {| CACHE := CACHE w; clock := clock w; requests := requests w;
     outbox := outbox w ++ [m] |}.

(** A reply without options, as the error replies are sent. *)
Definition plainReply (chatId : Z) (text : JsString) : Message :=
  {| chat := chatId; body := text; parse_mode := None;
     inline_keyboard := None |}.

(** A text the [message] handler acts on: present, not empty, and not a
    command. *)
Definition isQueryText (msg : Msg.t) (text : JsString) : Prop :=
  Msg.text msg = Some text /\ text <> [] /\ startsWith text (u "/") = false.



(** A button press the selection handler acts on: it comes with its
    message, and its data starts with [select_]. *)
Definition isSelection (q : Query.t) (chatId : Z) (d : JsString) : Prop :=
  Query.message_chat_id q = Some chatId /\ Query.data q = Some d /\
  startsWith d (u "select_") = true.

Definition ackCall (q : Query.t) : BotCall :=
  answerCallbackQuery (Query.id q) (u "Loading...").

Definition loadingMessage (chatId : Z) : Message :=
  {| chat := chatId; body := skeletonText;
     parse_mode := Some (u "Markdown"); inline_keyboard := None |}.

Definition loadingCall (chatId : Z) : BotCall :=
  sendMessage (loadingMessage chatId).

(** The response of the detail API for The Matrix, and a network that
    always answers with it. *)
Definition detailResponse : Response := {| data := Some {| results := None |} |}.

Definition detailNetwork : Network :=
  fun _ _ => {| elapsed := 300; reply := Some detailResponse |}.

(* ===================================================================== *)
(** ** Sanity checks of the string primitives *)
(* ===================================================================== *)

Example cleanQuery_rrr : cleanQuery (u "rrr movie") = u "rrr".
Proof. reflexivity. Qed.

Example cleanQuery_bb : cleanQuery (u "watch breaking bad show") = u "breaking bad".
Proof. reflexivity. Qed.

Example cleanQuery_interior : cleanQuery (u "dark movie knight") = u "dark  knight".
Proof. reflexivity. Qed.

Example endpoint_bb : endpoint (u "watch breaking bad show") = u "tv".
Proof. reflexivity. Qed.

Example encodeURIComponent_url :
  encodeURIComponent (u "https://a.b/c?q=x y&k=1")
  = Some (u "https%3A%2F%2Fa.b%2Fc%3Fq%3Dx%20y%26k%3D1").
Proof. reflexivity. Qed.

Example encodeURIComponent_eacute :
  encodeURIComponent [0xE9%N] = Some (u "%C3%A9").
Proof. reflexivity. Qed.

Example encodeURIComponent_clapper :
  encodeURIComponent (astral 0x1F3AC) = Some (u "%F0%9F%8E%AC").
Proof. reflexivity. Qed.

Example encodeURIComponent_lone : encodeURIComponent [0xD83C%N; 65%N] = None.
Proof. reflexivity. Qed.

Example Number_toString_603 : Number_toString 603 = u "603".
Proof. reflexivity. Qed.

Example split_token :
  split 95 (u "select_movie_603") = [u "select"; u "movie"; u "603"].
Proof. reflexivity. Qed.

Example selectedUrl_603 :
  selectedUrl {| PROXY_API_URL := None; TMDB_API_KEY := Some (u "K") |}
    (u "select_movie_603")
  = Some (u "https://api.themoviedb.org/3/movie/603?api_key=K").
Proof. reflexivity. Qed.

(* ===================================================================== *)
(** ** Percent-encoding *)
(* ===================================================================== *)

Lemma unreserved_not_surrogate c :
  uriUnreserved c = true -> isLowSurrogate c = false /\ isHighSurrogate c = false.
Proof.
  unfold uriUnreserved, isLowSurrogate, isHighSurrogate. cbn [existsb].
  rewrite !orb_true_iff, !andb_true_iff, !N.leb_le, !N.eqb_eq.
  intros H. split; apply andb_false_iff; rewrite !N.leb_gt; lia.
Qed.

(** [encodeURIComponent] throws exactly on the strings that hold a
    surrogate without its partner. *)
Lemma encodeURIComponent_defined s :
  is_Some (encodeURIComponent s) <-> wellFormed s = true.
Proof.
  induction s as [s IH] using (induction_ltof1 _ (@length N)).
  unfold ltof in IH. destruct s as [|c rest]; cbn.
  - split; [done|by eexists].
  - destruct (uriUnreserved c) eqn:Hu.
    + apply unreserved_not_surrogate in Hu as [-> ->].
      rewrite fmap_is_Some. apply IH. cbn. lia.
    + destruct (isLowSurrogate c); [split; [by intros [? ?]|done]|].
      destruct (isHighSurrogate c).
      * destruct rest as [|d rest']; [split; [by intros [? ?]|done]|].
        destruct (isLowSurrogate d); cbn; [|split; [by intros [? ?]|done]].
        rewrite fmap_is_Some. apply IH. cbn. lia.
      * rewrite fmap_is_Some. apply IH. cbn. lia.
Qed.

(* ===================================================================== *)
(** ** The fetch cache *)
(* ===================================================================== *)

Ltac unfold_stmt :=
  unfold fastApi, function, try_catch, bind, await, eval, pure, return_, throw,
    Date_now, CACHE_has, CACHE_get, CACHE_delete, CACHE_set, axios_get,
    with_CACHE in *; cbn [fst snd CACHE clock requests outbox] in *.

Lemma has_true (m : gmap JsString Entry.t) url e :
  m !! url = Some e -> bool_decide (is_Some (m !! url)) = true.
Proof. intros H. apply bool_decide_eq_true. rewrite H. eauto. Qed.

Lemma has_false (m : gmap JsString Entry.t) url :
  m !! url = None -> bool_decide (is_Some (m !! url)) = false.
Proof. intros H. apply bool_decide_eq_false. rewrite H. intros [? ?]. discriminate. Qed.

(** A call that finds a stale entry runs exactly like a call that finds
    none, started from the cache without that entry. *)
Lemma fastApi_stale_as_absent net env url w e :
  CACHE w !! url = Some e -> ~ fresh (clock w) e ->
  fastApi net env url w = fastApi net env url (with_CACHE (delete url) w).
Proof.
  intros He Hs. unfold fresh in Hs. unfold_stmt.
  rewrite (has_true _ _ _ He), He.
  destruct (Z.ltb_spec (clock w - Entry.time e) CACHE_TTL) as [Hlt|Hge]; [lia|].
  rewrite has_false by apply lookup_delete_eq.
  cbn [CACHE clock requests outbox]. reflexivity.
Qed.

(** The upstream part, when the cache has no entry for [url]. *)
Lemma fastApi_absent net env url w :
  CACHE w !! url = None ->
  fastApi net env url w =
    let o1 := net (requests w) (primaryRequest url) in
    let w1 := {| CACHE := CACHE w; clock := clock w + elapsed o1;
                 requests := requests w ++ [primaryRequest url];
                 outbox := outbox w |} in
    match reply o1 with
    | Some res => (Fulfilled res, with_CACHE (insert url (Entry.mk (clock w) res)) w1)
    | None =>
        match encodeURIComponent url with
        | None => (Rejected URIError, w1)
        | Some enc =>
            let o2 := net (requests w1) (fallbackRequest env enc) in
            let w2 := {| CACHE := CACHE w; clock := clock w1 + elapsed o2;
                         requests := requests w1 ++ [fallbackRequest env enc];
                         outbox := outbox w |} in
            match reply o2 with
            | Some res =>
                (Fulfilled res, with_CACHE (insert url (Entry.mk (clock w) res)) w2)
            | None => (Rejected AxiosError, w2)
            end
        end
    end.
Proof.
  intros Hn. unfold_stmt. rewrite (has_false _ _ Hn).
  unfold primaryRequest, fallbackRequest. cbn.
  destruct (reply (net (requests w) _)); [reflexivity|].
  destruct (encodeURIComponent url) as [enc|]; [|reflexivity].
  cbn. destruct (reply (net _ _)); reflexivity.
Qed.

Lemma fastApi_hit net env url w e :
  CACHE w !! url = Some e -> fresh (clock w) e ->
  fastApi net env url w = (Fulfilled (Entry.data e), w).
Proof.
  intros He Hf. unfold fresh in Hf. unfold_stmt.
  rewrite (has_true _ _ _ He), He.
  destruct (Z.ltb_spec (clock w - Entry.time e) CACHE_TTL); [reflexivity|lia].
Qed.

(** C1. A URL whose cache entry is younger than the TTL of 10 minutes
    (600000 ms) at the time of the call: [fastApi] returns the stored
    payload, issues no request at all (the request log is unchanged, so
    neither the primary nor the fallback was called) and leaves the
    cache map as it was. *)
Theorem fastApi_fresh_entry_served net env url w e :
  CACHE w !! url = Some e ->
  (clock w - Entry.time e < 10 * 60 * 1000)%Z ->
  let '(r, w') := fastApi net env url w in
  r = Fulfilled (Entry.data e) /\ requests w' = requests w /\ CACHE w' = CACHE w.
Proof.
  intros He Hage. rewrite (fastApi_hit net env url w e He Hage). auto.
Qed.

Lemma fastApi_fresh_entry_served_witness :
  CACHE (worldAged 599999) !! sampleUrl = Some (Entry.mk 1000 oldResponse) /\
  (clock (worldAged 599999) - 1000 < 10 * 60 * 1000)%Z /\
  let '(r, w') := fastApi deadNetwork sampleEnv sampleUrl (worldAged 599999) in
  r = Fulfilled oldResponse /\ requests w' = [] /\
  CACHE w' = {[ sampleUrl := Entry.mk 1000 oldResponse ]}.
Proof.
  split; [apply lookup_singleton_eq|]. split; [cbn; lia|].
  apply (fastApi_fresh_entry_served deadNetwork sampleEnv sampleUrl
           (worldAged 599999) (Entry.mk 1000 oldResponse)).
  - apply lookup_singleton_eq.
  - cbn. lia.
Defined.

(** Reduce a call that cannot be served from the cache to the upstream
    part: either there is no entry, or the stale one is deleted first. *)
Ltac to_upstream Hmiss :=
  match goal with
  | |- context [fastApi ?net ?env ?url ?w] =>
      let e0 := fresh "e0" in
      let Hlook := fresh "Hlook" in
      destruct (CACHE w !! url) as [e0|] eqn:Hlook;
      [ rewrite (fastApi_stale_as_absent net env url w e0 Hlook (Hmiss e0 Hlook)),
          (fastApi_absent net env url (with_CACHE (delete url) w))
          by apply lookup_delete_eq
      | rewrite (fastApi_absent net env url w Hlook) ];
      cbn [with_CACHE CACHE clock requests outbox]
  end.

Lemma fresh_remaining e t : fresh t e <-> (0 < remaining e t)%Z.
Proof. unfold fresh, remaining. lia. Qed.

(** C2. When the call is not served from the cache and the primary
    request (target [url], timeout 5000 ms) fails, exactly one more
    request is issued: target = proxy base followed by the
    percent-encoded [url], timeout 8000 ms.  If that request succeeds
    its response is returned and stored under the key [url] itself; no
    other key of the cache is written. *)
Theorem fastApi_fallback_request net env url w enc :
  miss url w ->
  reply (net (requests w) {| target := url; timeout := 5000 |}) = None ->
  encodeURIComponent url = Some enc ->
  let proxyUrl := template (PROXY_API_URL env) ++ enc in
  let '(r, w') := fastApi net env url w in
  requests w' = requests w ++ [ {| target := url; timeout := 5000 |};
                                {| target := proxyUrl; timeout := 8000 |} ] /\
  forall res,
    reply (net (requests w ++ [ {| target := url; timeout := 5000 |} ])
               {| target := proxyUrl; timeout := 8000 |}) = Some res ->
    r = Fulfilled res /\
    CACHE w' = <[ url := Entry.mk (clock w) res ]> (CACHE w).
Proof.
  intros Hmiss Hp Henc. fold (primaryRequest url) in *.
  change {| target := template (PROXY_API_URL env) ++ enc; timeout := 8000 |}
    with (fallbackRequest env enc).
  to_upstream Hmiss; rewrite Hp, Henc;
    destruct (reply (net _ (fallbackRequest env enc))) as [res0|] eqn:Hf; cbn;
    (split; [by rewrite <- app_assoc|]); intros res Hres;
    unfold fallbackRequest, primaryRequest in *;
    rewrite Hres in Hf; try discriminate; injection Hf as <-.
  - split; [reflexivity|]. apply insert_delete_eq.
  - split; reflexivity.
Qed.

Lemma miss_emptyWorld url : miss url emptyWorld.
Proof. intros e He. cbn in He. rewrite lookup_empty in He. discriminate. Qed.

Lemma sampleUrl_encoded :
  encodeURIComponent sampleUrl
  = Some (u "https%3A%2F%2Fapi.themoviedb.org%2F3%2Fmovie%2F603%3Fapi_key%3DK").
Proof. reflexivity. Qed.

Lemma fastApi_fallback_request_witness :
  let proxyUrl :=
    u "https://proxy.example/?u=https%3A%2F%2Fapi.themoviedb.org%2F3%2Fmovie%2F603%3Fapi_key%3DK" in
  let '(r, w') := fastApi proxyOnlyNetwork sampleEnv sampleUrl emptyWorld in
  requests w' = [ {| target := sampleUrl; timeout := 5000 |};
                  {| target := proxyUrl; timeout := 8000 |} ] /\
  r = Fulfilled newResponse /\
  CACHE w' = <[ sampleUrl := Entry.mk 1000 newResponse ]> ∅.
Proof.
  pose proof (fastApi_fallback_request proxyOnlyNetwork sampleEnv sampleUrl
                emptyWorld _ (miss_emptyWorld sampleUrl) eq_refl
                sampleUrl_encoded) as H.
  cbv zeta in *.
  destruct (fastApi proxyOnlyNetwork sampleEnv sampleUrl emptyWorld) as [r w'].
  destruct H as [Hreq Hres]. split; [exact Hreq|]. apply Hres. reflexivity.
Defined.

Lemma miss_stale url w e :
  CACHE w !! url = Some e -> (CACHE_TTL <= clock w - Entry.time e)%Z -> miss url w.
Proof.
  intros He Hage e' He'. rewrite He in He'. injection He' as <-.
  unfold fresh. lia.
Qed.

(** C3 (as amended).  When the call is not served from the cache, the
    primary request fails and the fallback request fails too (or cannot
    even be built), the call is rejected and the cache holds no entry
    for [url] afterwards.  No entry is created or overwritten: every
    entry present afterwards was present before with the same content,
    and the cache afterwards is the cache before without the key [url].
    So the only change a failed call makes is the removal of an expired
    entry of [url]; without one the cache is unchanged. *)
Theorem fastApi_double_failure net env url w :
  miss url w ->
  reply (net (requests w) {| target := url; timeout := 5000 |}) = None ->
  (forall enc, encodeURIComponent url = Some enc ->
     reply (net (requests w ++ [ {| target := url; timeout := 5000 |} ])
                {| target := template (PROXY_API_URL env) ++ enc;
                   timeout := 8000 |}) = None) ->
  let '(r, w') := fastApi net env url w in
  (exists err, r = Rejected err) /\
  CACHE w' !! url = None /\
  CACHE w' = delete url (CACHE w) /\
  (forall k e, CACHE w' !! k = Some e -> CACHE w !! k = Some e) /\
  (CACHE w !! url = None -> CACHE w' = CACHE w).
Proof.
  intros Hmiss Hp Hf. fold (primaryRequest url) in *.
  assert (Hsub : forall k e, delete url (CACHE w) !! k = Some e ->
                             CACHE w !! k = Some e).
  { intros k e. rewrite lookup_delete. case_decide; [discriminate|done]. }
  to_upstream Hmiss; rewrite Hp;
    (destruct (encodeURIComponent url) as [enc|] eqn:Henc;
     [ specialize (Hf enc eq_refl); unfold fallbackRequest; cbn; rewrite Hf | ]);
    cbn [CACHE].
  all: split; [eexists; reflexivity|].
  all: split; [first [exact Hlook | apply lookup_delete_eq]|].
  all: split; [first [reflexivity | symmetry; by apply delete_id]|].
  all: split; [first [exact Hsub | auto]|].
  all: intros H; first [discriminate H | reflexivity].
Qed.

Lemma worldAged_lookup age :
  CACHE (worldAged age) !! sampleUrl = Some (Entry.mk 1000 oldResponse).
Proof. apply lookup_singleton_eq. Qed.

Lemma miss_worldAged age : (600000 <= age)%Z -> miss sampleUrl (worldAged age).
Proof.
  intros H. apply (miss_stale _ _ _ (worldAged_lookup age)).
  unfold CACHE_TTL. cbn. lia.
Qed.

Lemma fastApi_double_failure_witness :
  let '(r, w') := fastApi deadNetwork sampleEnv sampleUrl (worldAged 600000) in
  (exists err, r = Rejected err) /\
  CACHE w' !! sampleUrl = None /\
  CACHE w' = delete sampleUrl (CACHE (worldAged 600000)) /\
  (forall k e, CACHE w' !! k = Some e -> CACHE (worldAged 600000) !! k = Some e) /\
  (CACHE (worldAged 600000) !! sampleUrl = None -> CACHE w' = CACHE (worldAged 600000)).
Proof.
  apply (fastApi_double_failure deadNetwork sampleEnv sampleUrl (worldAged 600000)).
  - apply miss_worldAged. lia.
  - reflexivity.
  - intros enc _. reflexivity.
Defined.

(** C3 as stated fails: a call that finds an entry aged exactly the TTL
    and then sees both requests fail is rejected, yet it has changed the
    cache: the entry that was there before the call is gone. *)
Lemma fastApi_double_failure_changes_cache :
  let w := worldAged 600000 in
  let '(r, w') := fastApi deadNetwork sampleEnv sampleUrl w in
  reply (deadNetwork (requests w) {| target := sampleUrl; timeout := 5000 |}) = None /\
  (forall req, reply (deadNetwork (requests w ++ [ {| target := sampleUrl; timeout := 5000 |} ]) req) = None) /\
  r = Rejected AxiosError /\
  CACHE w !! sampleUrl = Some (Entry.mk 1000 oldResponse) /\
  CACHE w' !! sampleUrl = None /\
  CACHE w' <> CACHE w.
Proof.
  cbv zeta.
  rewrite (fastApi_stale_as_absent _ _ _ _ _ (worldAged_lookup 600000))
    by (unfold fresh, CACHE_TTL; cbn; lia).
  rewrite fastApi_absent by apply lookup_delete_eq.
  rewrite sampleUrl_encoded. cbn [deadNetwork reply elapsed with_CACHE CACHE].
  split; [reflexivity|]. split; [reflexivity|]. split; [reflexivity|].
  split; [apply worldAged_lookup|]. split; [apply lookup_delete_eq|].
  intros Heq. pose proof (worldAged_lookup 600000) as Hl.
  rewrite <- Heq, lookup_delete_eq in Hl. discriminate.
Qed.

(** C4. A URL whose cache entry is as old as the TTL or older: the call
    behaves as a call on the cache from which that entry has been
    removed; it issues the primary request for [url]; if it succeeds,
    the cache holds for [url] an entry with the new response whose
    timestamp is strictly later than the expired one; and if it fails
    the stale entry is gone. *)
Theorem fastApi_stale_entry_refreshed net env url w e :
  CACHE w !! url = Some e ->
  (10 * 60 * 1000 <= clock w - Entry.time e)%Z ->
  fastApi net env url w = fastApi net env url (with_CACHE (delete url) w) /\
  let '(r, w') := fastApi net env url w in
  (exists rest,
     requests w' = requests w ++ {| target := url; timeout := 5000 |} :: rest) /\
  (forall res, r = Fulfilled res ->
     exists e', CACHE w' !! url = Some e' /\ Entry.data e' = res /\
                Entry.time e' = clock w /\ (Entry.time e < Entry.time e')%Z) /\
  (forall err, r = Rejected err -> CACHE w' !! url = None).
Proof.
  intros He Hage.
  assert (Hst : ~ fresh (clock w) e) by (unfold fresh, CACHE_TTL; lia).
  change (10 * 60 * 1000)%Z with CACHE_TTL in Hage. unfold CACHE_TTL in Hage.
  split; [by apply (fastApi_stale_as_absent net env url w e)|].
  rewrite (fastApi_stale_as_absent net env url w e He Hst),
    (fastApi_absent net env url (with_CACHE (delete url) w))
    by apply lookup_delete_eq.
  cbn [with_CACHE CACHE clock requests outbox]. fold (primaryRequest url).
  destruct (reply (net (requests w) (primaryRequest url))) as [res1|].
  - cbn. split; [by eexists|]. split; [|discriminate].
    intros res [= <-]. eexists. split; [apply lookup_insert_eq|].
    cbn. repeat split. lia.
  - destruct (encodeURIComponent url) as [enc|].
    + cbn. destruct (reply (net _ (fallbackRequest env enc))) as [res2|]; cbn.
      * split; [rewrite <- app_assoc; by eexists|]. split; [|discriminate].
        intros res [= <-]. eexists. split; [apply lookup_insert_eq|].
        cbn. repeat split. lia.
      * split; [rewrite <- app_assoc; by eexists|]. split; [discriminate|].
        intros _ _. apply lookup_delete_eq.
    + cbn. split; [by eexists|]. split; [discriminate|].
      intros _ _. apply lookup_delete_eq.
Qed.

Lemma fastApi_stale_entry_refreshed_witness :
  let '(r, w') := fastApi liveNetwork sampleEnv sampleUrl (worldAged 600000) in
  r = Fulfilled newResponse /\
  requests w' = [ {| target := sampleUrl; timeout := 5000 |} ] /\
  CACHE w' !! sampleUrl = Some (Entry.mk 601000 newResponse).
Proof.
  pose proof (fastApi_stale_entry_refreshed liveNetwork sampleEnv sampleUrl
                (worldAged 600000) _ (worldAged_lookup 600000)
                ltac:(cbn; lia)) as [Heq H].
  rewrite Heq in *. rewrite fastApi_absent in * by apply lookup_delete_eq.
  cbn in *. split; [reflexivity|]. split; [reflexivity|].
  destruct H as (_ & Hok & _). destruct (Hok _ eq_refl) as (e' & Hl & Hd & Ht & _).
  rewrite Hl. destruct e'; cbn in *. by subst.
Defined.

(** Whatever the call does, an entry found in the cache afterwards is
    either an entry that was already there, or the entry of [url] with
    the clock value read on entry as its timestamp. *)
Lemma fastApi_stored_timestamp net env url w :
  let '(_, w') := fastApi net env url w in
  forall k e, CACHE w' !! k = Some e ->
    CACHE w !! k = Some e \/ (k = url /\ Entry.time e = clock w).
Proof.
  assert (Hins : forall (m : gmap JsString Entry.t) res k e,
             <[url := Entry.mk (clock w) res]> m !! k = Some e ->
             (forall e', m !! k = Some e' -> CACHE w !! k = Some e') ->
             CACHE w !! k = Some e \/ (k = url /\ Entry.time e = clock w)).
  { intros m res k e. rewrite lookup_insert. case_decide as Hk.
    - intros [= <-] _. right. by subst.
    - intros Hl Hm. left. by apply Hm. }
  assert (Hdel : forall k e', delete url (CACHE w) !! k = Some e' ->
                              CACHE w !! k = Some e').
  { intros k e'. rewrite lookup_delete. case_decide; [discriminate|done]. }
  destruct (CACHE w !! url) as [e0|] eqn:Hlook.
  - destruct (Z.ltb_spec (clock w - Entry.time e0) CACHE_TTL) as [Hlt|Hge].
    + rewrite (fastApi_hit net env url w e0 Hlook Hlt). auto.
    + rewrite (fastApi_stale_as_absent net env url w e0 Hlook)
        by (unfold fresh; lia).
      rewrite fastApi_absent by apply lookup_delete_eq.
      cbn [with_CACHE CACHE clock requests outbox].
      destruct (reply (net (requests w) (primaryRequest url))); cbn.
      { intros k e Hl. eapply Hins; eauto. }
      destruct (encodeURIComponent url) as [enc|]; cbn; [|by auto].
      destruct (reply (net _ (fallbackRequest env enc))); cbn; [|by auto].
      intros k e Hl. eapply Hins; eauto.
  - rewrite (fastApi_absent net env url w Hlook).
    cbn [with_CACHE CACHE clock requests outbox].
    destruct (reply (net (requests w) (primaryRequest url))); cbn.
    { intros k e Hl. eapply Hins; eauto. }
    destruct (encodeURIComponent url) as [enc|]; cbn; [|by auto].
    destruct (reply (net _ (fallbackRequest env enc))); cbn; [|by auto].
    intros k e Hl. eapply Hins; eauto.
Qed.

(** C9. The timestamp of an entry stored by a call is the clock value
    read on entry, before any request: an entry found in the cache after
    the call was either there before, unchanged, or is the entry of
    [url] stamped with the entry clock.  In particular, when the primary
    request fails after [d1] ms and the fallback succeeds after [d2] ms,
    the entry stored for [url] is stamped with the entry clock while the
    call returns at that clock plus [d1 + d2]: at that instant the entry
    can be served for [CACHE_TTL - (d1 + d2)] more milliseconds, which
    is strictly less than the TTL of 600000 ms as soon as the two
    attempts took any time at all. *)
Theorem fastApi_fallback_entry_timestamp net env url w :
  (let '(_, w') := fastApi net env url w in
   forall k e, CACHE w' !! k = Some e ->
     CACHE w !! k = Some e \/ (k = url /\ Entry.time e = clock w)) /\
  (forall enc res,
     miss url w ->
     reply (net (requests w) (primaryRequest url)) = None ->
     encodeURIComponent url = Some enc ->
     reply (net (requests w ++ [primaryRequest url]) (fallbackRequest env enc))
       = Some res ->
     let d1 := elapsed (net (requests w) (primaryRequest url)) in
     let d2 := elapsed (net (requests w ++ [primaryRequest url])
                            (fallbackRequest env enc)) in
     let '(_, w') := fastApi net env url w in
     exists e,
       CACHE w' !! url = Some e /\ Entry.data e = res /\
       Entry.time e = clock w /\
       clock w' = (clock w + d1 + d2)%Z /\
       remaining e (clock w') = (CACHE_TTL - (d1 + d2))%Z /\
       ((0 < d1 + d2)%Z -> (remaining e (clock w') < 10 * 60 * 1000)%Z)).
Proof.
  split; [apply fastApi_stored_timestamp|].
  intros enc res Hmiss Hp Henc Hf d1 d2. subst d1 d2.
  to_upstream Hmiss; rewrite Hp, Henc; cbn; rewrite Hf; cbn.
  all: eexists; split; [apply lookup_insert_eq|]; cbn.
  all: unfold remaining, CACHE_TTL; cbn; repeat split; lia.
Qed.

Lemma fastApi_fallback_entry_timestamp_witness :
  let '(_, w') := fastApi proxyOnlyNetwork sampleEnv sampleUrl emptyWorld in
  exists e,
    CACHE w' !! sampleUrl = Some e /\ Entry.data e = newResponse /\
    Entry.time e = 1000%Z /\
    clock w' = 7200%Z /\ remaining e (clock w') = 593800%Z /\
    (remaining e (clock w') < 600000)%Z.
Proof.
  destruct (fastApi_fallback_entry_timestamp proxyOnlyNetwork sampleEnv
              sampleUrl emptyWorld) as [_ H].
  specialize (H _ newResponse (miss_emptyWorld sampleUrl) eq_refl
                sampleUrl_encoded eq_refl).
  cbv zeta in H.
  destruct (fastApi proxyOnlyNetwork sampleEnv sampleUrl emptyWorld) as [r w'].
  destruct H as (e & Hl & Hd & Ht & Hc & Hr & Hlt).
  exists e. repeat split; try assumption. apply Hlt. cbn. lia.
Defined.

(* ===================================================================== *)
(** ** The query classifier *)
(* ===================================================================== *)

Lemma match_word_spec pat text :
  match_word pat text = true <-> exists w post, sameWord pat w /\ text = w ++ post.
Proof.
  unfold sameWord. revert text. induction pat as [|p pat IH]; intros text; cbn.
  - split; [intros _; by exists [], text|done].
  - destruct text as [|c text].
    + split; [done|]. intros (w & post & Hw & Ht).
      destruct w; [discriminate Hw|discriminate Ht].
    + rewrite andb_true_iff, N.eqb_eq, IH. split.
      * intros (Hc & w & post & Hw & ->). exists (c :: w), post. cbn.
        by rewrite Hw, Hc.
      * intros (w & post & Hw & Ht). destruct w as [|c' w]; [discriminate Hw|].
        cbn in Hw, Ht. injection Hw as Hc Hw. injection Ht as -> ->.
        split; [done|]. by exists w, post.
Qed.

Lemma match_alt_None alts text :
  match_alt alts text = None <-> ~ startsWithWord alts text.
Proof.
  unfold startsWithWord. induction alts as [|a alts IH]; cbn.
  - split; [|done]. intros _ (a & w & post & Ha & _). by apply elem_of_nil in Ha.
  - destruct (match_word a text) eqn:Hm.
    + split; [done|]. intros Hn. exfalso. apply Hn.
      apply match_word_spec in Hm as (w & post & Hw & Ht).
      exists a, w, post. split; [left|done].
    + rewrite IH. split; intros Hn (b & w & post & Hb & Hw & Ht); apply Hn.
      * apply elem_of_cons in Hb as [->|Hb]; [|by exists b, w, post].
        exfalso. assert (match_word a text = true) as Hm'
          by (apply match_word_spec; by exists w, post).
        congruence.
      * exists b, w, post. split; [by right|done].
Qed.

Lemma match_alt_Some alts text n :
  match_alt alts text = Some n ->
  exists a w post, a ∈ alts /\ sameWord a w /\ text = w ++ post /\ length w = n.
Proof.
  induction alts as [|a alts IH]; cbn; [done|].
  destruct (match_word a text) eqn:Hm.
  - intros [= <-]. apply match_word_spec in Hm as (w & post & Hw & Ht).
    exists a, w, post. repeat split; [left|done..|].
    unfold sameWord in Hw. apply (f_equal length) in Hw.
    by rewrite !length_map in Hw.
  - intros H. destruct (IH H) as (b & w & post & Hb & Hrest).
    exists b, w, post. split; [by right|done].
Qed.

(** [RegExp_test] decides [mentions]. *)
Lemma RegExp_test_spec alts text :
  RegExp_test alts text = true <-> mentions alts text.
Proof.
  unfold mentions. induction text as [|c text IH]; cbn.
  - destruct (match_alt alts []) eqn:Hm.
    + split; [intros _|done]. exists [], []. split; [done|].
      apply match_alt_Some in Hm as (a & w & post & Ha & Hw & Ht & _).
      by exists a, w, post.
    + split; [done|]. intros (pre & post & Ht & Hs).
      symmetry in Ht. apply app_eq_nil in Ht as [-> ->].
      by apply match_alt_None in Hm.
  - destruct (match_alt alts (c :: text)) eqn:Hm.
    + split; [intros _|done]. exists [], (c :: text). split; [done|].
      apply match_alt_Some in Hm as (a & w & post & Ha & Hw & Ht & _).
      by exists a, w, post.
    + rewrite IH. split.
      * intros (pre & post & -> & Hs). by exists (c :: pre), post.
      * intros (pre & post & Ht & Hs). destruct pre as [|c' pre].
        -- cbn in Ht. subst post. by apply match_alt_None in Hm.
        -- injection Ht as -> ->. by exists pre, post.
Qed.

Lemma hasMovieKeyword_spec text :
  hasMovieKeyword text = true <-> mentions [u "movie"; u "film"] text.
Proof. apply RegExp_test_spec. Qed.

Lemma hasTvKeyword_spec text :
  hasTvKeyword text = true <-> mentions [u "tv"; u "series"; u "show"] text.
Proof. apply RegExp_test_spec. Qed.

(** C5. The endpoint chosen for a text: [movie] when the text mentions
    movie or film (in any letter case) and none of tv, series, show;
    [tv] when it mentions one of tv, series, show and neither movie nor
    film; [multi] when it mentions words of both lists or of neither. *)
Theorem endpoint_classification text :
  let movie := mentions [u "movie"; u "film"] text in
  let tv := mentions [u "tv"; u "series"; u "show"] text in
  (movie -> ~ tv -> endpoint text = u "movie") /\
  (tv -> ~ movie -> endpoint text = u "tv") /\
  (movie -> tv -> endpoint text = u "multi") /\
  (~ movie -> ~ tv -> endpoint text = u "multi").
Proof.
  cbv zeta. rewrite <- hasMovieKeyword_spec, <- hasTvKeyword_spec.
  unfold endpoint.
  destruct (hasMovieKeyword text), (hasTvKeyword text); cbn;
    repeat split; intros; congruence.
Qed.

Ltac decide_mentions :=
  match goal with
  | |- mentions _ _ => apply RegExp_test_spec; vm_compute; reflexivity
  | |- ~ mentions _ _ =>
      let H := fresh in
      intros H; apply RegExp_test_spec in H; vm_compute in H; discriminate H
  end.

Lemma endpoint_classification_witness :
  endpoint (u "rrr Movie") = u "movie" /\
  endpoint (u "dark tv") = u "tv" /\
  endpoint (u "film series") = u "multi" /\
  endpoint (u "squid") = u "multi".
Proof.
  split; [|split; [|split]].
  - destruct (endpoint_classification (u "rrr Movie")) as (H & _).
    apply H; decide_mentions.
  - destruct (endpoint_classification (u "dark tv")) as (_ & H & _).
    apply H; decide_mentions.
  - destruct (endpoint_classification (u "film series")) as (_ & _ & H & _).
    apply H; decide_mentions.
  - destruct (endpoint_classification (u "squid")) as (_ & _ & _ & H).
    apply H; decide_mentions.
Defined.

(** *** Removing the keywords *)

Lemma replace_go_skip alts k text :
  replace_go alts k text = replace_go alts 0 (drop k text).
Proof.
  revert k. induction text as [|c t IH]; intros k.
  - by destruct k.
  - destruct k as [|k]; [done|]. cbn [replace_go drop]. apply IH.
Qed.

Lemma sameWord_nil a : sameWord a [] -> a = [].
Proof. unfold sameWord. by destruct a. Qed.

Lemma replace_all_stripped words text :
  Forall (fun a => a <> []) words ->
  stripped words text (replace_all words text).
Proof.
  intros Hne. unfold replace_all.
  induction text as [text IH] using (induction_ltof1 _ (@length N)).
  unfold ltof in IH. destruct text as [|c t]; [constructor|].
  cbn [replace_go]. destruct (match_alt words (c :: t)) as [[|k]|] eqn:Hm.
  - exfalso. apply match_alt_Some in Hm as (a & w & post & Ha & Hw & _ & Hl).
    apply nil_length_inv in Hl as ->. apply sameWord_nil in Hw as ->.
    rewrite Forall_forall in Hne. by apply (Hne [] Ha).
  - apply match_alt_Some in Hm as (a & w & post & Ha & Hw & Ht & Hl).
    destruct w as [|c' w]; [discriminate Hl|].
    cbn in Ht, Hl. injection Ht as <- ->. injection Hl as <-.
    rewrite replace_go_skip, drop_app_length.
    apply (stripped_drop words a (c :: w) post); [done..|].
    apply IH. cbn. rewrite length_app. lia.
  - apply stripped_keep; [by apply match_alt_None|]. apply IH. cbn. lia.
Qed.

(** *** Trimming *)

Lemma trimStart_spec s :
  exists l, s = l ++ trimStart s /\ allWhiteSpace l /\
            forall c t, trimStart s = c :: t -> isWhiteSpace c = false.
Proof.
  induction s as [|c s (l & Hs & Hl & Hh)]; cbn.
  - exists []. split; [done|]. split; [constructor|done].
  - destruct (isWhiteSpace c) eqn:Hc.
    + exists (c :: l). split; [cbn; by rewrite <- Hs|]. split; [|done].
      by constructor.
    + exists []. split; [done|]. split; [constructor|].
      by intros c' t [= <- <-].
Qed.

Lemma trimEnd_spec s :
  exists r, s = trimEnd s ++ r /\ allWhiteSpace r /\
            forall t c, trimEnd s = t ++ [c] -> isWhiteSpace c = false.
Proof.
  unfold trimEnd. destruct (trimStart_spec (rev s)) as (l & Hs & Hl & Hh).
  exists (rev l). split; [|split].
  - rewrite <- rev_app_distr, <- Hs. by rewrite rev_involutive.
  - by apply List.Forall_rev.
  - intros t c Ht. apply (f_equal (@rev N)) in Ht.
    rewrite rev_involutive, rev_app_distr in Ht. cbn in Ht. by apply Hh in Ht.
Qed.

Lemma trim_spec s :
  exists l r, s = l ++ trim s ++ r /\ allWhiteSpace l /\ allWhiteSpace r /\
              trimmed (trim s).
Proof.
  unfold trim. destruct (trimStart_spec s) as (l & Hs & Hl & Hh).
  destruct (trimEnd_spec (trimStart s)) as (r & Hs' & Hr & Hlast).
  exists l, r. split; [by rewrite <- Hs'|]. split; [done|]. split; [done|].
  split; [|done]. intros c t Hc. rewrite Hc in Hs'. by apply (Hh c (t ++ r)).
Qed.

(** *** [stripped] determines its result for the keyword list *)

Lemma stripped_functional words text o1 o2 :
  unambiguous words ->
  stripped words text o1 -> stripped words text o2 -> o1 = o2.
Proof.
  intros Hu H1. revert o2.
  induction H1 as [|a w text out Ha Hw Hne H1 IH|c text out Hn H1 IH];
    intros o2 H2.
  - remember [] as full eqn:E.
    destruct H2 as [|a w text out Ha Hw Hne H2|c text out Hn H2];
      [done| |discriminate].
    by apply app_eq_nil in E as [-> _].
  - remember (w ++ text) as full eqn:E.
    destruct H2 as [|a' w' text' out' Ha' Hw' Hne' H2|c text' out' Hn H2].
    + symmetry in E. by apply app_eq_nil in E as [-> _].
    + assert (w' = w) as -> by (eapply (Hu a' a); eauto).
      apply app_inv_head in E as ->. by apply IH.
    + exfalso. apply Hn. rewrite E. by exists a, w, text.
  - remember (c :: text) as full eqn:E.
    destruct H2 as [|a' w' text' out' Ha' Hw' Hne' H2|c' text' out' Hn' H2].
    + discriminate.
    + exfalso. apply Hn. rewrite E. by exists a', w', text'.
    + injection E as -> ->. f_equal. by apply IH.
Qed.

Lemma match_word_key a text :
  2 <= length a -> match_word a text = true ->
  List.map canonicalize (take 2 text) = List.map canonicalize (take 2 a).
Proof.
  destruct a as [|p1 [|p2 a]]; cbn; try lia. intros _.
  destruct text as [|c1 [|c2 t]]; cbn; try discriminate.
  - rewrite andb_false_r. discriminate.
  - rewrite !andb_true_iff, !N.eqb_eq. intros (-> & -> & _). reflexivity.
Qed.

Lemma clean_pattern_keys a1 a2 :
  a1 ∈ clean_pattern -> a2 ∈ clean_pattern ->
  List.map canonicalize (take 2 a1) = List.map canonicalize (take 2 a2) ->
  a1 = a2.
Proof.
  unfold clean_pattern. intros H1 H2.
  repeat (apply elem_of_cons in H1 as [->|H1]);
    try (by apply elem_of_nil in H1);
    repeat (apply elem_of_cons in H2 as [->|H2]);
    try (by apply elem_of_nil in H2);
    intros E; first [reflexivity | vm_compute in E; discriminate E].
Qed.

Lemma clean_pattern_long a : a ∈ clean_pattern -> 2 <= length a.
Proof.
  unfold clean_pattern. intros H.
  repeat (apply elem_of_cons in H as [->|H]); try (by apply elem_of_nil in H);
    cbn; lia.
Qed.

Lemma clean_pattern_unambiguous : unambiguous clean_pattern.
Proof.
  intros a1 a2 w1 w2 t1 t2 H1 H2 Hw1 Hw2 E.
  assert (M1 : match_word a1 (w1 ++ t1) = true)
    by (apply match_word_spec; by exists w1, t1).
  assert (M2 : match_word a2 (w1 ++ t1) = true)
    by (apply match_word_spec; exists w2, t2; by rewrite E).
  apply match_word_key in M1; [|by apply clean_pattern_long].
  apply match_word_key in M2; [|by apply clean_pattern_long].
  assert (a1 = a2) as <- by (apply clean_pattern_keys; congruence).
  apply (app_inj_1 _ _ _ _) in E as [? _]; [done|].
  unfold sameWord in *. apply (f_equal length) in Hw1, Hw2.
  rewrite !length_map in *. congruence.
Qed.

Lemma clean_pattern_nonempty : Forall (fun a => a <> []) clean_pattern.
Proof. unfold clean_pattern. repeat constructor; discriminate. Qed.

(** C6 (as amended).  The cleaned query is obtained in two steps.  First
    every occurrence of movie, film, tv, series, show, link, watch or
    download, in any letter case, met by one scan from left to right is
    removed (and nothing else), which determines the intermediate
    string.  Then white space is removed from the two ends of that
    string only: what is left neither starts nor ends with white space,
    and the white space inside it, also next to a removed keyword, is
    kept.  The text [watch breaking bad show] cleans to
    [breaking bad]. *)
Theorem cleanQuery_strips_then_trims :
  (forall text, exists removed l r,
     stripped clean_pattern text removed /\
     (forall other, stripped clean_pattern text other -> other = removed) /\
     removed = l ++ cleanQuery text ++ r /\
     allWhiteSpace l /\ allWhiteSpace r /\
     trimmed (cleanQuery text)) /\
  cleanQuery (u "watch breaking bad show") = u "breaking bad".
Proof.
  split; [|reflexivity]. intros text. unfold cleanQuery.
  destruct (trim_spec (replace_all clean_pattern text)) as (l & r & Hs & Hl & Hr & Ht).
  pose proof (replace_all_stripped clean_pattern text clean_pattern_nonempty) as Hst.
  exists (replace_all clean_pattern text), l, r.
  split; [exact Hst|]. split; [|tauto].
  intros other Ho.
  exact (stripped_functional clean_pattern text other _
           clean_pattern_unambiguous Ho Hst).
Qed.

(** C6 as stated fails: the white space around an interior keyword is
    not removed.  [dark movie knight] cleans to [dark], two spaces,
    [knight]. *)
Lemma cleanQuery_keeps_interior_space :
  cleanQuery (u "dark movie knight") = u "dark" ++ [32; 32]%N ++ u "knight" /\
  cleanQuery (u "dark movie knight") <> u "dark knight" /\
  cleanQuery (u "dark movie knight") <> u "darkknight".
Proof. split; [reflexivity|]. split; vm_compute; discriminate. Qed.

(* ===================================================================== *)
(** ** The selection list *)
(* ===================================================================== *)

Lemma slice_prefix {A} (l : list A) (n : nat) :
  slice l 0 (Z.of_nat n) = take n l.
Proof.
  unfold slice, slice_index.
  destruct (Z.ltb_spec (Z.of_nat n) 0) as [?|_]; [lia|].
  change (0 <? 0)%Z with false. cbv iota.
  rewrite (Z.min_l 0) by lia. cbn [Z.to_nat drop]. rewrite Z.sub_0_r.
  destruct (Nat.le_gt_cases (length l) n) as [Hle|Hgt].
  - rewrite Z.min_r by lia. rewrite Nat2Z.id.
    rewrite (take_ge l n) by lia. by apply take_ge.
  - rewrite Z.min_l by lia. by rewrite Nat2Z.id.
Qed.

Lemma js_or_spec (a b : option JsString) :
  js_or a b = match a with Some (c :: s) => Some (c :: s) | _ => b end.
Proof. by destruct a as [[|c s]|]. Qed.






Lemma buttons_spec endpoint rs :
  buttons endpoint rs =
    List.map (buttonRow endpoint) (take 10 (List.filter notPerson rs)).
Proof. unfold buttons. by rewrite (slice_prefix _ 10). Qed.


Example buttons_sample :
  List.map (fun row => text <$> row)
    (buttons (u "multi") [samplePerson; sampleMovie; sampleShow; sampleUntagged])
  = [ [astral 0x1F3AC ++ u " The Matrix (1999)"];
      [astral 0x1F4FA ++ u " Breaking Bad (2008)"];
      [astral 0x1F4FA ++ u " Four Rooms (N/A)"] ].
Proof. reflexivity. Qed.

(* ===================================================================== *)
(** ** Selection tokens *)
(* ===================================================================== *)

Lemma split_no_sep sep s : sep ∉ s -> split sep s = [s].
Proof.
  induction s as [|c s IH]; [done|]. intros Hn.
  apply not_elem_of_cons in Hn as [Hc Hs]. cbn.
  destruct (N.eqb_spec c sep) as [->|_]; [done|]. by rewrite IH.
Qed.

Lemma split_app sep a b :
  sep ∉ a -> split sep (a ++ sep :: b) = a :: split sep b.
Proof.
  induction a as [|c a IH]; intros Hn; cbn.
  - by rewrite N.eqb_refl.
  - apply not_elem_of_cons in Hn as [Hc Ha].
    destruct (N.eqb_spec c sep) as [->|_]; [done|]. by rewrite IH.
Qed.

Lemma startsWith_app p s : startsWith (p ++ s) p = true.
Proof. induction p as [|c p IH]; [by destruct s|]. cbn. by rewrite N.eqb_refl. Qed.



(** Decoding a token [select_<kind>_<id>] whose kind and id contain no
    underscore gives back the kind and the id. *)
Lemma selectedUrl_token env kind id :
  95%N ∉ kind -> 95%N ∉ id ->
  selectedUrl env (tokenSpec kind id) = Some (detailUrl env (Some kind) (Some id)).
Proof.
  intros Hk Hi. unfold selectedUrl, tokenSpec.
  rewrite startsWith_app. cbn [negb].
  change (u "select_" ++ kind ++ u "_" ++ id)
    with (u "select" ++ 95%N :: (kind ++ 95%N :: id)).
  rewrite split_app by (vm_compute; intros H; repeat (apply elem_of_cons in H as [H|H]; [discriminate H|]); by apply elem_of_nil in H).
  rewrite split_app by done. rewrite split_no_sep by done. reflexivity.
Qed.

Lemma endpoint_values text :
  endpoint text = u "movie" \/ endpoint text = u "tv" \/ endpoint text = u "multi".
Proof.
  unfold endpoint.
  destruct (hasMovieKeyword text), (hasTvKeyword text); cbn; auto.
Qed.





(* ===================================================================== *)
(** ** The message handler *)
(* ===================================================================== *)

Lemma fastApi_outbox net env url w : outbox (fastApi net env url w).2 = outbox w.
Proof.
  unfold_stmt. destruct (bool_decide _).
  - destruct (CACHE w !! url) as [e|]; [|done].
    destruct (_ <? _)%Z; [done|]. cbn.
    destruct (reply _); [done|]. cbn.
    destruct (encodeURIComponent url); [|done]. cbn.
    by destruct (reply _).
  - cbn. destruct (reply _); [done|]. cbn.
    destruct (encodeURIComponent url); [|done]. cbn.
    by destruct (reply _).
Qed.

Lemma onMessage_results net env msg text w res w1 enc query :
  Msg.text msg = Some text -> text <> [] ->
  startsWith text (u "/") = false ->
  cleanQuery (trim text) = query -> query <> [] ->
  encodeURIComponent query = Some enc ->
  fastApi net env (searchUrl env (endpoint (trim text)) enc) w
    = (Fulfilled res, w1) ->
  noResults res = false ->
  onMessage net env msg w
  = (Fulfilled tt,
     {| CACHE := CACHE w1; clock := clock w1; requests := requests w1;
        outbox := outbox w1 ++
          [ {| chat := Msg.chat_id msg; body := msgResults query;
               parse_mode := Some (u "Markdown");
               inline_keyboard :=
                 Some (buttons (endpoint (trim text)) (resultsOf res)) |} ] |}).
Proof.
  intros Ht Hne Hs Hq Hqne Henc Hf Hno.
  unfold onMessage. rewrite Ht. destruct text as [|t0 ts]; [done|].
  rewrite Hs, Hq. destruct query as [|c q]; [done|].
  unfold function, bind, try_catch, eval, await, pure, bot_sendMessage.
  rewrite Henc, Hf, Hno. reflexivity.
Qed.

(** C10. When the search answers with a non-empty result array whose
    entries are all persons, the handler does not take the no-results
    branch: the one message it sends is the "Results for" message, and
    its inline keyboard has no row at all. *)
Theorem onMessage_only_persons net env msg text w res w1 enc query rs :
  Msg.text msg = Some text -> text <> [] ->
  startsWith text (u "/") = false ->
  cleanQuery (trim text) = query -> query <> [] ->
  encodeURIComponent query = Some enc ->
  fastApi net env (searchUrl env (endpoint (trim text)) enc) w
    = (Fulfilled res, w1) ->
  data res = Some {| results := Some rs |} -> rs <> [] ->
  Forall (fun r => Result.media_type r = Some (u "person")) rs ->
  let '(r, w') := onMessage net env msg w in
  r = Fulfilled tt /\
  noResults res = false /\
  outbox w' = outbox w ++
    [ {| chat := Msg.chat_id msg;
         body := astral 0x1F50D ++ u " Results for *" ++ query ++ u "*";
         parse_mode := Some (u "Markdown");
         inline_keyboard := Some [] |} ].
Proof.
  intros Ht Hne Hs Hq Hqne Henc Hf Hd Hrs Hall.
  assert (Hno : noResults res = false).
  { unfold noResults. rewrite Hd. cbn. by destruct rs. }
  rewrite (onMessage_results net env msg text w res w1 enc query
             Ht Hne Hs Hq Hqne Henc Hf Hno).
  split; [done|]. split; [done|]. cbn [outbox].
  pose proof (fastApi_outbox net env (searchUrl env (endpoint (trim text)) enc) w) as Ho.
  rewrite Hf in Ho. cbn in Ho. rewrite Ho. do 4 f_equal.
  rewrite buttons_spec. unfold resultsOf. rewrite Hd. cbn [results from_option id].
  replace (List.filter notPerson rs) with (@nil Result.t); [done|].
  clear -Hall. induction Hall as [|r rs Hr _ IH]; [done|]. cbn.
  unfold notPerson at 1. rewrite Hr, bool_decide_eq_true_2 by done. exact IH.
Qed.

Lemma onMessage_only_persons_witness :
  let '(r, w') := onMessage personsNetwork sampleEnv sampleMsg emptyWorld in
  r = Fulfilled tt /\
  noResults personsResponse = false /\
  outbox w' =
    [ {| chat := 42;
         body := astral 0x1F50D ++ u " Results for *keanu*";
         parse_mode := Some (u "Markdown");
         inline_keyboard := Some [] |} ].
Proof.
  pose proof (fastApi_absent personsNetwork sampleEnv
                (searchUrl sampleEnv (endpoint (trim (u " keanu "))) (u "keanu"))
                emptyWorld (lookup_empty _)) as Hf.
  cbn [personsNetwork reply elapsed] in Hf. cbv zeta in Hf.
  apply (onMessage_only_persons personsNetwork sampleEnv sampleMsg (u " keanu ")
           emptyWorld personsResponse _ (u "keanu") (u "keanu") [samplePerson]
           eq_refl ltac:(discriminate) eq_refl eq_refl ltac:(discriminate)
           eq_refl Hf eq_refl ltac:(discriminate)).
  repeat constructor.
Defined.

(* ===================================================================== *)
(** ** More on the fetch cache *)
(* ===================================================================== *)

(** Split a call into its four runs: served from the cache, and the
    upstream part with or without a stale entry to delete first. *)
Ltac fastApi_cases net env url w :=
  let e0 := fresh "e0" in
  let Hlook := fresh "Hlook" in
  let Hfresh := fresh "Hfresh" in
  let Hstale := fresh "Hstale" in
  destruct (CACHE w !! url) as [e0|] eqn:Hlook;
  [ destruct (Z.ltb_spec (clock w - Entry.time e0) CACHE_TTL) as [Hfresh|Hstale];
    [ rewrite (fastApi_hit net env url w e0 Hlook Hfresh)
    | rewrite (fastApi_stale_as_absent net env url w e0 Hlook)
        by (unfold fresh; lia);
      rewrite (fastApi_absent net env url (with_CACHE (delete url) w))
        by apply lookup_delete_eq ]
  | rewrite (fastApi_absent net env url w Hlook) ];
  unfold with_CACHE; cbn [CACHE clock requests outbox].

Ltac upstream_cases net env url :=
  destruct (reply (net _ (primaryRequest url))) as [?res1|] eqn:?Hp;
  [ | destruct (encodeURIComponent url) as [?enc|] eqn:?Henc;
      [ cbn [clock requests];
        destruct (reply (net _ (fallbackRequest env _))) as [?res2|] eqn:?Hf | ] ];
  unfold with_CACHE; cbn [CACHE clock requests outbox fst snd].

(** X1. On a call that is not served from the cache, a primary request
    that succeeds is the only request: its response is returned and
    stored under [url] with the clock read on entry, and the clock has
    moved by the duration of that one request. *)
Theorem fastApi_primary_success net env url w res :
  miss url w ->
  reply (net (requests w) {| target := url; timeout := 5000 |}) = Some res ->
  fastApi net env url w =
    (Fulfilled res,
     {| CACHE := <[ url := Entry.mk (clock w) res ]> (CACHE w);
        clock := clock w
                 + elapsed (net (requests w) {| target := url; timeout := 5000 |});
        requests := requests w ++ [ {| target := url; timeout := 5000 |} ];
        outbox := outbox w |}).
Proof.
  intros Hmiss Hp. fold (primaryRequest url) in *.
  to_upstream Hmiss; rewrite Hp; unfold with_CACHE;
    cbn [CACHE clock requests outbox].
  - by rewrite insert_delete_eq.
  - reflexivity.
Qed.

Lemma fastApi_primary_success_witness :
  fastApi liveNetwork sampleEnv sampleUrl (worldAged 600000) =
    (Fulfilled newResponse,
     {| CACHE := <[ sampleUrl := Entry.mk 601000 newResponse ]>
                   (CACHE (worldAged 600000));
        clock := 601300;
        requests := [ {| target := sampleUrl; timeout := 5000 |} ];
        outbox := [] |}).
Proof.
  apply (fastApi_primary_success liveNetwork sampleEnv sampleUrl
           (worldAged 600000) newResponse).
  - apply miss_worldAged. lia.
  - reflexivity.
Defined.

(** X2. A call issues no request exactly when the cache holds an entry
    of [url] that passes the freshness test. *)
Theorem fastApi_silent_iff_fresh net env url w :
  requests (fastApi net env url w).2 = requests w <->
  exists e, CACHE w !! url = Some e /\ (clock w - Entry.time e < CACHE_TTL)%Z.
Proof.
  assert (Hgrow : forall (l extra : list Request),
             extra <> [] -> l ++ extra = l -> False).
  { intros l extra Hne Heq. apply (f_equal length) in Heq.
    rewrite length_app in Heq. destruct extra; [done|cbn in Heq; lia]. }
  fastApi_cases net env url w.
  - split; [intros _; by exists e0|done].
  - split; [|intros (e & [= <-] & Hlt); lia].
    upstream_cases net env url; intros Heq; exfalso;
      rewrite <- ?app_assoc in Heq; by apply Hgrow in Heq.
  - split; [|intros (e & [=] & _)].
    upstream_cases net env url; intros Heq; exfalso;
      rewrite <- ?app_assoc in Heq; by apply Hgrow in Heq.
Qed.

(** X3. A call leaves the entries of all other URLs alone, and sends
    nothing to the chat. *)
Theorem fastApi_frame net env url w k :
  k <> url ->
  CACHE (fastApi net env url w).2 !! k = CACHE w !! k /\
  outbox (fastApi net env url w).2 = outbox w.
Proof.
  intros Hk. split.
  - fastApi_cases net env url w; [done| |];
      upstream_cases net env url;
      by rewrite ?lookup_insert_ne, ?lookup_delete_ne by done.
  - fastApi_cases net env url w; [done| |]; by upstream_cases net env url.
Qed.

Lemma fastApi_frame_witness :
  CACHE (fastApi liveNetwork sampleEnv (u "https://other") (worldAged 0)).2
    !! sampleUrl = Some (Entry.mk 1000 oldResponse) /\
  outbox (fastApi liveNetwork sampleEnv (u "https://other") (worldAged 0)).2 = [].
Proof.
  destruct (fastApi_frame liveNetwork sampleEnv (u "https://other") (worldAged 0)
              sampleUrl ltac:(discriminate)) as [Hc Ho].
  split; [|exact Ho]. rewrite Hc. apply worldAged_lookup.
Defined.

(** X4. After a call that is fulfilled, the cache holds for [url] an
    entry with the response that was returned, and that entry passes the
    freshness test at the clock of the call; after a call that is
    rejected, the cache holds no entry for [url]. *)
Theorem fastApi_result_matches_cache net env url w :
  match fastApi net env url w with
  | (Fulfilled res, w') =>
      exists e, CACHE w' !! url = Some e /\ Entry.data e = res /\
                (clock w - Entry.time e < CACHE_TTL)%Z
  | (Rejected _, w') => CACHE w' !! url = None
  end.
Proof.
  assert (Hnew : forall (m : gmap JsString Entry.t) res,
             exists e, <[url := Entry.mk (clock w) res]> m !! url = Some e /\
                       Entry.data e = res /\
                       (clock w - Entry.time e < CACHE_TTL)%Z).
  { intros m res. eexists. split; [apply lookup_insert_eq|].
    cbn. split; [done|]. unfold CACHE_TTL. lia. }
  fastApi_cases net env url w.
  - by exists e0.
  - upstream_cases net env url;
      first [apply Hnew | apply lookup_delete_eq].
  - upstream_cases net env url; first [apply Hnew | assumption].
Qed.

(** X5. A call adds at most two requests to the log, in this order: the
    direct one for [url] with 5000 ms, then the one through the proxy
    with 8000 ms; the second is only issued when the first has failed.
    Nothing is ever retried. *)
Theorem fastApi_at_most_two_requests net env url w :
  let w' := (fastApi net env url w).2 in
  requests w' = requests w \/
  requests w' = requests w ++ [ {| target := url; timeout := 5000 |} ] \/
  exists enc,
    encodeURIComponent url = Some enc /\
    reply (net (requests w) {| target := url; timeout := 5000 |}) = None /\
    requests w' = requests w ++
      [ {| target := url; timeout := 5000 |};
        {| target := template (PROXY_API_URL env) ++ enc; timeout := 8000 |} ].
Proof.
  cbv zeta. fold (primaryRequest url).
  fastApi_cases net env url w; [by left| |];
    upstream_cases net env url; rewrite <- ?app_assoc;
    first [ right; left; reflexivity
          | right; right; eexists; repeat split; reflexivity ].
Qed.

(** X6. Fetching twice.  When a call that went upstream is fulfilled,
    any later call for the same URL that finds the entry of [url] as the
    first call left it, less than the TTL after the clock the first call
    read on entry, returns the same response without any request and
    without changing anything.  The TTL runs from the entry of the first
    call, not from its completion. *)
Theorem fastApi_twice net net2 env url w res w1 w2 :
  miss url w ->
  fastApi net env url w = (Fulfilled res, w1) ->
  CACHE w2 !! url = CACHE w1 !! url ->
  (clock w2 - clock w < CACHE_TTL)%Z ->
  fastApi net2 env url w2 = (Fulfilled res, w2).
Proof.
  intros Hmiss Hcall Hsame Hclock.
  assert (Hentry : CACHE w1 !! url = Some (Entry.mk (clock w) res)).
  { revert Hcall. fastApi_cases net env url w.
    - exfalso. by apply (Hmiss e0).
    - upstream_cases net env url; intros [= <- <-]; cbn [CACHE];
        apply lookup_insert_eq.
    - upstream_cases net env url; intros [= <- <-]; cbn [CACHE];
        apply lookup_insert_eq. }
  rewrite Hentry in Hsame.
  by rewrite (fastApi_hit net2 env url w2 _ Hsame).
Qed.

Lemma fastApi_twice_witness :
  let w1 := (fastApi proxyOnlyNetwork sampleEnv sampleUrl emptyWorld).2 in
  let w2 := {| CACHE := CACHE w1; clock := clock emptyWorld + 599999;
               requests := requests w1; outbox := [] |} in
  fastApi deadNetwork sampleEnv sampleUrl w2 = (Fulfilled newResponse, w2).
Proof.
  cbv zeta.
  apply (fastApi_twice proxyOnlyNetwork deadNetwork sampleEnv sampleUrl
           emptyWorld newResponse
           (fastApi proxyOnlyNetwork sampleEnv sampleUrl emptyWorld).2).
  - apply miss_emptyWorld.
  - rewrite (fastApi_absent _ _ _ _ (lookup_empty _)). reflexivity.
  - reflexivity.
  - cbn. unfold CACHE_TTL. lia.
Defined.

(** X7. A URL that holds a surrogate without its partner cannot be
    percent-encoded: when its primary request fails, the call is
    rejected with the [URIError] of [encodeURIComponent], no request
    goes to the proxy, and an expired entry of [url] has been deleted. *)
Theorem fastApi_unencodable_url net env url w :
  miss url w ->
  reply (net (requests w) {| target := url; timeout := 5000 |}) = None ->
  wellFormed url = false ->
  fastApi net env url w =
    (Rejected URIError,
     {| CACHE := delete url (CACHE w);
        clock := clock w
                 + elapsed (net (requests w) {| target := url; timeout := 5000 |});
        requests := requests w ++ [ {| target := url; timeout := 5000 |} ];
        outbox := outbox w |}).
Proof.
  intros Hmiss Hp Hwf. fold (primaryRequest url) in *.
  assert (Henc : encodeURIComponent url = None).
  { destruct (encodeURIComponent url) eqn:E; [|done].
    assert (is_Some (encodeURIComponent url)) as Hs by (rewrite E; eauto).
    apply encodeURIComponent_defined in Hs. congruence. }
  to_upstream Hmiss; rewrite Hp, Henc; unfold with_CACHE;
    cbn [CACHE clock requests outbox]; [done|].
  by rewrite delete_id.
Qed.

Lemma fastApi_unencodable_url_witness :
  fastApi deadNetwork sampleEnv [0xD83C%N] emptyWorld =
    (Rejected URIError,
     {| CACHE := delete [0xD83C%N] ∅; clock := 6000;
        requests := [ {| target := [0xD83C%N]; timeout := 5000 |} ];
        outbox := [] |}).
Proof.
  apply (fastApi_unencodable_url deadNetwork sampleEnv [0xD83C%N] emptyWorld).
  - apply miss_emptyWorld.
  - reflexivity.
  - reflexivity.
Defined.

(* ===================================================================== *)
(** ** More on the query classifier *)
(* ===================================================================== *)

Lemma stripped_sublist words text out :
  stripped words text out -> out `sublist_of` text.
Proof.
  induction 1 as [|a w text out _ _ _ _ IH|c text out _ _ IH].
  - constructor.
  - by apply sublist_inserts_l.
  - by constructor.
Qed.

Lemma trim_sublist s : trim s `sublist_of` s.
Proof.
  destruct (trim_spec s) as (l & r & Hs & _). rewrite Hs at 2.
  by apply sublist_inserts_l, sublist_inserts_r.
Qed.

(** X8. Cleaning only deletes: the cleaned query is made of code units
    of the text, in their order; nothing is inserted, replaced or
    moved. *)
Theorem cleanQuery_only_deletes text :
  cleanQuery text `sublist_of` text /\ length (cleanQuery text) <= length text.
Proof.
  assert (H : cleanQuery text `sublist_of` text).
  { unfold cleanQuery. etrans; [apply trim_sublist|].
    apply stripped_sublist with clean_pattern.
    apply replace_all_stripped, clean_pattern_nonempty. }
  split; [exact H|]. by apply sublist_length.
Qed.

Lemma mentions_cons words c text :
  mentions words (c :: text) <->
  startsWithWord words (c :: text) \/ mentions words text.
Proof.
  unfold mentions. split.
  - intros (pre & post & Ht & Hs). destruct pre as [|c' pre].
    + left. cbn in Ht. by subst.
    + right. injection Ht as -> ->. by exists pre, post.
  - intros [Hs|(pre & post & -> & Hs)].
    + by exists [], (c :: text).
    + by exists (c :: pre), post.
Qed.

Lemma mentions_mono ws1 ws2 text :
  (forall a, a ∈ ws1 -> a ∈ ws2) -> mentions ws1 text -> mentions ws2 text.
Proof.
  intros Hsub (pre & post & Ht & a & w & p & Ha & Hw & Hp).
  exists pre, post. split; [done|]. exists a, w, p. auto.
Qed.

Lemma replace_all_no_mention words text :
  ~ mentions words text -> replace_all words text = text.
Proof.
  unfold replace_all. induction text as [|c t IH]; [done|].
  intros Hn. rewrite mentions_cons in Hn. cbn [replace_go].
  assert (match_alt words (c :: t) = None) as -> by (apply match_alt_None; tauto).
  f_equal. apply IH. tauto.
Qed.

(** X9. A text without any of the eight keywords (in any letter case)
    is only trimmed, and is searched on the [multi] endpoint. *)
Theorem cleanQuery_without_keyword text :
  ~ mentions clean_pattern text ->
  cleanQuery text = trim text /\ endpoint text = u "multi".
Proof.
  intros Hn. split.
  - unfold cleanQuery. by rewrite replace_all_no_mention.
  - assert (Hm : hasMovieKeyword text = false).
    { apply not_true_is_false. rewrite hasMovieKeyword_spec. intros H.
      apply Hn. revert H. apply mentions_mono. intros a.
      unfold clean_pattern. rewrite !elem_of_cons. tauto. }
    assert (Ht : hasTvKeyword text = false).
    { apply not_true_is_false. rewrite hasTvKeyword_spec. intros H.
      apply Hn. revert H. apply mentions_mono. intros a.
      unfold clean_pattern. rewrite !elem_of_cons. tauto. }
    unfold endpoint. by rewrite Hm, Ht.
Qed.

Lemma cleanQuery_without_keyword_witness :
  cleanQuery (u " squid game ") = u "squid game" /\
  endpoint (u " squid game ") = u "multi".
Proof.
  destruct (cleanQuery_without_keyword (u " squid game ")) as [Hq He].
  - decide_mentions.
  - split; [rewrite Hq; reflexivity|exact He].
Defined.

Lemma stripped_length words text out :
  stripped words text out -> length out <= length text.
Proof. intros H. by apply sublist_length, (stripped_sublist words). Qed.

Lemma sameWord_length a w : sameWord a w -> length w = length a.
Proof.
  unfold sameWord. intros H. apply (f_equal length) in H.
  by rewrite !length_map in H.
Qed.

Lemma stripped_shorter words text out :
  Forall (fun a => 2 <= length a) words ->
  stripped words text out -> mentions words text ->
  length out + 2 <= length text.
Proof.
  intros Hlen. rewrite Forall_forall in Hlen.
  induction 1 as [|a w text out Ha Hw _ Hst IH|c text out Hn Hst IH]; intros Hm.
  - exfalso. destruct Hm as (pre & post & Ht & a & w & p & Ha & Hw & Hp).
    symmetry in Ht. apply app_eq_nil in Ht as [_ ->].
    symmetry in Hp. apply app_eq_nil in Hp as [-> _].
    apply sameWord_length in Hw. specialize (Hlen a Ha). cbn in Hw. lia.
  - apply stripped_length in Hst. apply sameWord_length in Hw.
    specialize (Hlen a Ha). rewrite length_app. lia.
  - apply mentions_cons in Hm as [Hs|Hm]; [done|]. specialize (IH Hm).
    cbn. lia.
Qed.

(** X10. A text that contains one of the eight keywords (in any letter
    case) never reaches the search unchanged: its cleaned query is at
    least two code units shorter. *)
Theorem cleanQuery_with_keyword_shorter text :
  mentions clean_pattern text ->
  length (cleanQuery text) + 2 <= length text.
Proof.
  intros Hm. unfold cleanQuery.
  pose proof (sublist_length _ _ (trim_sublist (replace_all clean_pattern text))).
  pose proof (stripped_shorter clean_pattern text _
                ltac:(unfold clean_pattern; repeat constructor; cbn; lia)
                (replace_all_stripped _ text clean_pattern_nonempty) Hm).
  lia.
Qed.

Lemma cleanQuery_with_keyword_shorter_witness :
  length (cleanQuery (u "dark TV")) + 2 <= length (u "dark TV").
Proof.
  apply (cleanQuery_with_keyword_shorter (u "dark TV")). decide_mentions.
Defined.

(** *** Letter case *)

Lemma match_word_canon a t1 t2 :
  sameWord t1 t2 -> match_word a t1 = match_word a t2.
Proof.
  unfold sameWord. revert t1 t2.
  induction a as [|p a IH]; intros [|c1 t1] [|c2 t2] H; cbn in *; try done.
  injection H as Hc Ht. by rewrite Hc, (IH _ _ Ht).
Qed.

Lemma match_alt_canon alts t1 t2 :
  sameWord t1 t2 -> match_alt alts t1 = match_alt alts t2.
Proof.
  intros H. induction alts as [|a alts IH]; cbn; [done|].
  by rewrite (match_word_canon a t1 t2 H), IH.
Qed.

Lemma RegExp_test_canon alts t1 t2 :
  sameWord t1 t2 -> RegExp_test alts t1 = RegExp_test alts t2.
Proof.
  revert t2. induction t1 as [|c1 t1 IH]; intros [|c2 t2] H;
    try discriminate H.
  - done.
  - cbn [RegExp_test]. rewrite (match_alt_canon alts _ _ H).
    destruct (match_alt alts (c2 :: t2)); [done|].
    apply IH. unfold sameWord in *. cbn in H. by injection H.
Qed.

Lemma replace_go_canon alts k t1 t2 :
  sameWord t1 t2 ->
  sameWord (replace_go alts k t1) (replace_go alts k t2).
Proof.
  revert k t2. induction t1 as [|c1 t1 IH]; intros k [|c2 t2] H;
    try discriminate H; [done|].
  assert (Ht : sameWord t1 t2) by (unfold sameWord in *; cbn in H; by injection H).
  assert (Hc : canonicalize c2 = canonicalize c1)
    by (unfold sameWord in *; cbn in H; by injection H).
  cbn [replace_go]. destruct k as [|k]; [|by apply IH].
  rewrite (match_alt_canon alts _ _ H).
  destruct (match_alt alts (c2 :: t2)) as [[|k]|]; [| by apply IH |].
  - unfold sameWord. cbn. f_equal; [done|]. by apply IH.
  - unfold sameWord. cbn. f_equal; [done|]. by apply IH.
Qed.

Lemma letter_not_white c :
  (65 <= c)%N -> (c <= 122)%N -> isWhiteSpace c = false.
Proof.
  intros Hlo Hhi. destruct (isWhiteSpace c) eqn:H; [|done].
  unfold isWhiteSpace in H. cbn [existsb] in H.
  rewrite !orb_true_iff, andb_true_iff, !N.eqb_eq, !N.leb_le in H. lia.
Qed.

Lemma isWhiteSpace_canon c : isWhiteSpace (canonicalize c) = isWhiteSpace c.
Proof.
  unfold canonicalize. destruct (N.leb 97 c && N.leb c 122) eqn:E; [|done].
  apply andb_true_iff in E as [Hlo Hhi]. apply N.leb_le in Hlo, Hhi.
  rewrite !letter_not_white; [done|lia..].
Qed.

Lemma trimStart_canon t1 t2 :
  sameWord t1 t2 -> sameWord (trimStart t1) (trimStart t2).
Proof.
  revert t2. induction t1 as [|c1 t1 IH]; intros [|c2 t2] H;
    try discriminate H; [done|].
  assert (Hc : canonicalize c2 = canonicalize c1)
    by (unfold sameWord in *; cbn in H; by injection H).
  cbn [trimStart].
  rewrite <- (isWhiteSpace_canon c1), <- (isWhiteSpace_canon c2), Hc.
  destruct (isWhiteSpace (canonicalize c1)); [|done].
  apply IH. unfold sameWord in *. cbn in H. by injection H.
Qed.

Lemma rev_canon t1 t2 : sameWord t1 t2 -> sameWord (rev t1) (rev t2).
Proof. unfold sameWord. intros H. by rewrite !map_rev, H. Qed.

Lemma trim_canon t1 t2 : sameWord t1 t2 -> sameWord (trim t1) (trim t2).
Proof.
  intros H. unfold trim, trimEnd.
  by apply rev_canon, trimStart_canon, rev_canon, trimStart_canon.
Qed.

(** X11. Letter case does not matter: two texts that differ only in the
    case of ASCII letters get the same endpoint, and their cleaned
    queries differ only in the case of ASCII letters. *)
Theorem classifier_ignores_case t1 t2 :
  sameWord t1 t2 ->
  endpoint t1 = endpoint t2 /\ sameWord (cleanQuery t1) (cleanQuery t2).
Proof.
  intros H. split.
  - unfold endpoint, hasMovieKeyword, hasTvKeyword.
    by rewrite !(RegExp_test_canon _ t1 t2 H).
  - unfold cleanQuery, replace_all. by apply trim_canon, replace_go_canon.
Qed.

Lemma classifier_ignores_case_witness :
  endpoint (u "Dark TV Series") = endpoint (u "dark tv series") /\
  sameWord (cleanQuery (u "Dark TV Series")) (cleanQuery (u "dark tv series")).
Proof.
  apply (classifier_ignores_case (u "Dark TV Series") (u "dark tv series")).
  reflexivity.
Defined.

(** *** White space around the text *)

Lemma letter_vs_white p c :
  isLetter p = true -> isWhiteSpace c = true ->
  N.eqb (canonicalize p) (canonicalize c) = false.
Proof.
  unfold isLetter. rewrite andb_true_iff, !N.leb_le. intros [Hlo Hhi] Hw.
  apply N.eqb_neq. intros Heq. rewrite <- isWhiteSpace_canon, <- Heq in Hw.
  rewrite letter_not_white in Hw by lia. discriminate.
Qed.

Lemma match_word_white_tail a x r :
  Forall (fun p => isLetter p = true) a -> allWhiteSpace r ->
  match_word a (x ++ r) = match_word a x.
Proof.
  intros Ha Hr. revert x. induction Ha as [|p a Hp _ IH]; intros x; [done|].
  destruct x as [|c x]; cbn.
  - destruct Hr as [|c r Hc _]; [done|]. cbn.
    by rewrite (letter_vs_white p c Hp Hc).
  - by rewrite IH.
Qed.

Lemma match_alt_white_tail alts x r :
  wordsOfLetters alts -> allWhiteSpace r ->
  match_alt alts (x ++ r) = match_alt alts x.
Proof.
  intros Ha Hr. induction Ha as [|a alts [_ Hl] _ IH]; cbn; [done|].
  by rewrite (match_word_white_tail a x r Hl Hr), IH.
Qed.

Lemma match_alt_white_head alts c t :
  wordsOfLetters alts -> isWhiteSpace c = true -> match_alt alts (c :: t) = None.
Proof.
  intros Ha Hc. induction Ha as [|a alts [Hne Hl] _ IH]; cbn; [done|].
  destruct Hl as [|p a Hp _]; [done|]. cbn.
  by rewrite (letter_vs_white p c Hp Hc).
Qed.

Lemma replace_go_white_head alts l x :
  wordsOfLetters alts -> allWhiteSpace l ->
  replace_go alts 0 (l ++ x) = l ++ replace_go alts 0 x.
Proof.
  intros Ha Hl. induction Hl as [|c l Hc _ IH]; [done|].
  cbn [app replace_go]. rewrite (match_alt_white_head alts c _ Ha Hc).
  by rewrite IH.
Qed.

Lemma replace_go_white_tail alts x r :
  wordsOfLetters alts -> allWhiteSpace r ->
  replace_go alts 0 (x ++ r) = replace_go alts 0 x ++ r.
Proof.
  intros Ha Hr.
  induction x as [x IH] using (induction_ltof1 _ (@length N)).
  unfold ltof in IH. destruct x as [|c t].
  - cbn [app]. rewrite <- (app_nil_r r) at 1.
    rewrite (replace_go_white_head alts r [] Ha Hr). cbn. by rewrite app_nil_r.
  - change ((c :: t) ++ r) with (c :: (t ++ r)). cbn [replace_go].
    change (c :: (t ++ r)) with ((c :: t) ++ r).
    rewrite (match_alt_white_tail alts (c :: t) r Ha Hr).
    destruct (match_alt alts (c :: t)) as [[|k]|] eqn:Hm.
    + cbn. f_equal. apply IH. cbn. lia.
    + apply match_alt_Some in Hm as (a & w & post & _ & _ & Ht & Hl).
      destruct w as [|c' w]; [discriminate Hl|].
      cbn in Ht, Hl. injection Ht as <- ->. injection Hl as <-.
      rewrite (replace_go_skip alts _ ((w ++ post) ++ r)),
        (replace_go_skip alts _ (w ++ post)).
      rewrite <- app_assoc, !drop_app_length. apply IH.
      cbn. rewrite length_app. lia.
    + cbn. f_equal. apply IH. cbn. lia.
Qed.

Lemma RegExp_test_white_tail alts x r :
  wordsOfLetters alts -> allWhiteSpace r ->
  RegExp_test alts (x ++ r) = RegExp_test alts x.
Proof.
  intros Ha Hr. induction x as [|c x IH].
  - cbn [app]. induction Hr as [|c r Hc _ IH]; [done|].
    cbn [RegExp_test]. rewrite (match_alt_white_head alts c r Ha Hc), IH.
    cbn. destruct Ha as [|a alts [Hne _] _]; [done|].
    cbn. by destruct a.
  - change ((c :: x) ++ r) with (c :: (x ++ r)). cbn [RegExp_test].
    change (c :: (x ++ r)) with ((c :: x) ++ r).
    by rewrite (match_alt_white_tail alts (c :: x) r Ha Hr), IH.
Qed.

Lemma RegExp_test_white_head alts l x :
  wordsOfLetters alts -> allWhiteSpace l ->
  RegExp_test alts (l ++ x) = RegExp_test alts x.
Proof.
  intros Ha Hl. induction Hl as [|c l Hc _ IH]; [done|].
  cbn [app RegExp_test]. by rewrite (match_alt_white_head alts c _ Ha Hc).
Qed.

Lemma trimStart_white_head l y :
  allWhiteSpace l -> trimStart (l ++ y) = trimStart y.
Proof. induction 1 as [|c l Hc _ IH]; [done|]. cbn. by rewrite Hc. Qed.

Lemma trimStart_app_white y r :
  allWhiteSpace r ->
  trimStart (y ++ r) =
    match trimStart y with
    | [] => []
    | _ => trimStart y ++ r
    end.
Proof.
  intros Hr. induction y as [|c y IH].
  - cbn. rewrite <- (app_nil_r r). by rewrite trimStart_white_head.
  - cbn. destruct (isWhiteSpace c); [exact IH|done].
Qed.

Lemma trimEnd_white_tail z r : allWhiteSpace r -> trimEnd (z ++ r) = trimEnd z.
Proof.
  intros Hr. unfold trimEnd. rewrite rev_app_distr.
  rewrite trimStart_white_head; [done|]. by apply List.Forall_rev.
Qed.

Lemma trim_white l y r :
  allWhiteSpace l -> allWhiteSpace r -> trim (l ++ y ++ r) = trim y.
Proof.
  intros Hl Hr. unfold trim. rewrite (trimStart_white_head l _ Hl).
  rewrite (trimStart_app_white y r Hr).
  destruct (trimStart y) as [|c t]; [done|]. by apply trimEnd_white_tail.
Qed.

Lemma patterns_of_letters :
  wordsOfLetters clean_pattern /\ wordsOfLetters movie_pattern /\
  wordsOfLetters tv_pattern.
Proof.
  unfold wordsOfLetters, clean_pattern, movie_pattern, tv_pattern.
  repeat split; repeat (constructor; [split; [discriminate|]; repeat constructor|]);
    constructor.
Qed.

(** X12. White space around the text changes nothing: with any white
    space before and after it, a text gets the same endpoint and the
    same cleaned query.  In particular the handler would classify and
    clean the untrimmed message text to the same result as the trimmed
    one. *)
Theorem classifier_ignores_outer_space text :
  (forall l r, allWhiteSpace l -> allWhiteSpace r ->
     cleanQuery (l ++ text ++ r) = cleanQuery text /\
     endpoint (l ++ text ++ r) = endpoint text) /\
  cleanQuery (trim text) = cleanQuery text /\
  endpoint (trim text) = endpoint text.
Proof.
  destruct patterns_of_letters as (Hc & Hm & Ht).
  assert (Hgen : forall t l r, allWhiteSpace l -> allWhiteSpace r ->
            cleanQuery (l ++ t ++ r) = cleanQuery t /\
            endpoint (l ++ t ++ r) = endpoint t).
  { intros t l r Hl Hr. split.
    - unfold cleanQuery, replace_all.
      rewrite (replace_go_white_head _ l _ Hc Hl),
        (replace_go_white_tail _ t r Hc Hr).
      by apply trim_white.
    - unfold endpoint, hasMovieKeyword, hasTvKeyword.
      rewrite !(RegExp_test_white_head _ l _) by done.
      by rewrite !(RegExp_test_white_tail _ t r). }
  split; [apply Hgen|].
  destruct (trim_spec text) as (l & r & Hs & Hl & Hr & _).
  destruct (Hgen (trim text) l r Hl Hr) as [Hq He].
  rewrite <- Hs in Hq, He. by split.
Qed.

Lemma classifier_ignores_outer_space_witness :
  cleanQuery (u "  " ++ u "rrr movie" ++ u " ") = cleanQuery (u "rrr movie") /\
  endpoint (u "  " ++ u "rrr movie" ++ u " ") = endpoint (u "rrr movie").
Proof.
  destruct (classifier_ignores_outer_space (u "rrr movie")) as [H _].
  apply H; repeat constructor.
Defined.

(* ===================================================================== *)
(** ** More on the message handler *)
(* ===================================================================== *)

(** The handler on a text that leaves a non-empty query, in terms of the
    call of [fastApi] it makes. *)
Lemma onMessage_search net env msg text w enc :
  isQueryText msg text ->
  cleanQuery (trim text) <> [] ->
  encodeURIComponent (cleanQuery (trim text)) = Some enc ->
  onMessage net env msg w =
    match fastApi net env (searchUrl env (endpoint (trim text)) enc) w with
    | (Rejected _, w1) =>
        (Fulfilled tt, withMessage (plainReply (Msg.chat_id msg) msgBusy) w1)
    | (Fulfilled res, w1) =>
        if noResults res then
          match encodeURIComponent (trim text) with
          | Some raw =>
              (Fulfilled tt,
               withMessage
                 {| chat := Msg.chat_id msg; body := msgNoResults;
                    parse_mode := Some (u "Markdown");
                    inline_keyboard := Some [[googleButton (googleUrl raw)]] |}
                 w1)
          | None => (Rejected URIError, w1)
          end
        else
          (Fulfilled tt,
           withMessage
             {| chat := Msg.chat_id msg;
                body := msgResults (cleanQuery (trim text));
                parse_mode := Some (u "Markdown");
                inline_keyboard :=
                  Some (buttons (endpoint (trim text)) (resultsOf res)) |}
             w1)
    end.
Proof.
  intros (Ht & Hne & Hs) Hq Henc.
  unfold onMessage. rewrite Ht. destruct text as [|t0 ts]; [done|].
  rewrite Hs. destruct (cleanQuery (trim (t0 :: ts))) as [|c q] eqn:Hc; [done|].
  unfold function, bind, try_catch, eval, await, pure, return_, bot_sendMessage.
  rewrite Henc.
  destruct (fastApi net env _ w) as [[res|e] w1]; [|reflexivity].
  destruct (noResults res); [|reflexivity].
  by destruct (encodeURIComponent (trim (t0 :: ts))).
Qed.

(** X13. A message without text, with an empty text, or whose text
    starts with a slash is ignored: nothing is sent, nothing is
    requested, the cache is untouched. *)
Theorem onMessage_ignores_commands net env msg w :
  (Msg.text msg = None \/ Msg.text msg = Some [] \/
   exists text, Msg.text msg = Some text /\ startsWith text (u "/") = true) ->
  onMessage net env msg w = (Fulfilled tt, w).
Proof.
  unfold onMessage. intros [->|[->|(text & -> & Hs)]]; [done..|].
  destruct text as [|c t]; [done|]. by rewrite Hs.
Qed.

Lemma onMessage_ignores_commands_witness :
  onMessage deadNetwork sampleEnv (Msg.mk (Some (u "/start")) 42) emptyWorld
  = (Fulfilled tt, emptyWorld).
Proof.
  apply onMessage_ignores_commands. right. right. by exists (u "/start").
Defined.











(** X18. What goes upstream.  When the search is not in the cache, the
    first request the handler causes is the direct one, with 5000 ms,
    for the search URL made of the endpoint chosen for the trimmed text,
    the percent-encoded cleaned query and the API key. *)
Theorem onMessage_search_request net env msg text w enc :
  isQueryText msg text ->
  cleanQuery (trim text) <> [] ->
  encodeURIComponent (cleanQuery (trim text)) = Some enc ->
  let target :=
    u "https://api.themoviedb.org/3/search/" ++ endpoint (trim text)
    ++ u "?query=" ++ enc ++ u "&api_key=" ++ template (TMDB_API_KEY env) in
  CACHE w !! target = None ->
  exists rest,
    requests (onMessage net env msg w).2
    = requests w ++ {| target := target; timeout := 5000 |} :: rest.
Proof.
  intros Hok Hq Henc target Hmiss. fold (searchUrl env (endpoint (trim text)) enc) in target.
  rewrite (onMessage_search net env msg text w enc Hok Hq Henc).
  subst target. rewrite (fastApi_absent net env _ w Hmiss). cbv zeta.
  fold (primaryRequest (searchUrl env (endpoint (trim text)) enc)).
  destruct (reply (net (requests w) _)) as [res|].
  - unfold with_CACHE. cbn [requests].
    destruct (noResults res); [destruct (encodeURIComponent (trim text))|];
      cbn; by eexists.
  - destruct (encodeURIComponent (searchUrl env _ enc)) as [enc2|].
    + cbn [requests clock]. destruct (reply (net _ _)) as [res|].
      * unfold with_CACHE. cbn [requests].
        destruct (noResults res); [destruct (encodeURIComponent (trim text))|];
          cbn; rewrite <- app_assoc; by eexists.
      * cbn. rewrite <- app_assoc. by eexists.
    + cbn. by eexists.
Qed.

Lemma onMessage_search_request_witness :
  exists rest,
    requests (onMessage deadNetwork sampleEnv
                (Msg.mk (Some (u "Breaking Bad show")) 42) emptyWorld).2
    = {| target :=
           u "https://api.themoviedb.org/3/search/tv?query=Breaking%20Bad&api_key=K";
         timeout := 5000 |} :: rest.
Proof.
  apply (onMessage_search_request deadNetwork sampleEnv
           (Msg.mk (Some (u "Breaking Bad show")) 42) (u "Breaking Bad show")
           emptyWorld (u "Breaking%20Bad")).
  - repeat split. discriminate.
  - discriminate.
  - reflexivity.
  - apply lookup_empty.
Defined.

(* ===================================================================== *)
(** ** Selection tokens, decoded by position *)
(* ===================================================================== *)

Lemma no_underscore_select : 95%N ∉ u "select".
Proof.
  vm_compute. intros H.
  repeat (apply elem_of_cons in H as [H|H]; [discriminate H|]).
  by apply elem_of_nil in H.
Qed.

(** X19. The decoder takes the second and the third piece between
    underscores and nothing else: whatever follows a third underscore is
    dropped, and a token that stops after the kind asks for the id
    [undefined]. *)
Theorem selectedUrl_by_position env kind id :
  95%N ∉ kind -> 95%N ∉ id ->
  (forall rest,
     selectedUrl env (u "select_" ++ kind ++ u "_" ++ id ++ u "_" ++ rest)
     = selectedUrl env (u "select_" ++ kind ++ u "_" ++ id)) /\
  selectedUrl env (u "select_" ++ kind)
  = Some (u "https://api.themoviedb.org/3/" ++ kind ++ u "/undefined?api_key="
          ++ template (TMDB_API_KEY env)).
Proof.
  intros Hk Hi. split.
  - intros rest. fold (tokenSpec kind id).
    rewrite (selectedUrl_token env kind id Hk Hi).
    unfold selectedUrl. rewrite startsWith_app. cbn [negb].
    change (u "select_" ++ kind ++ u "_" ++ id ++ u "_" ++ rest)
      with (u "select" ++ 95%N :: (kind ++ 95%N :: (id ++ 95%N :: rest))).
    rewrite (split_app _ _ _ no_underscore_select), (split_app _ _ _ Hk),
      (split_app _ _ _ Hi).
    reflexivity.
  - unfold selectedUrl. rewrite startsWith_app. cbn [negb].
    change (u "select_" ++ kind) with (u "select" ++ 95%N :: kind).
    rewrite (split_app _ _ _ no_underscore_select), (split_no_sep _ _ Hk).
    reflexivity.
Qed.

Lemma not_in_u_sample :
  (95%N ∉ u "tv") /\ (95%N ∉ u "1396").
Proof.
  split; vm_compute; intros H;
    repeat (apply elem_of_cons in H as [H|H]; [discriminate H|]);
    by apply elem_of_nil in H.
Qed.

Lemma selectedUrl_by_position_witness :
  selectedUrl sampleEnv (u "select_tv_1396_extra_pieces")
  = selectedUrl sampleEnv (u "select_tv_1396") /\
  selectedUrl sampleEnv (u "select_tv")
  = Some (u "https://api.themoviedb.org/3/tv/undefined?api_key=K").
Proof.
  destruct not_in_u_sample as [Hk Hi].
  destruct (selectedUrl_by_position sampleEnv (u "tv") (u "1396") Hk Hi)
    as [Hrest Hshort].
  split; [exact (Hrest (u "extra_pieces"))|exact Hshort].
Defined.

(* ===================================================================== *)
(** ** The selection handler *)
(* ===================================================================== *)

(** The run of the handler on a selection, call by call. *)
Lemma onCallbackQuery_run tg net env detailOf q s chatId d :
  isSelection q chatId d ->
  let type := split 95 d !! 1%nat in
  let id := split 95 d !! 2%nat in
  onCallbackQuery tg net env detailOf q s =
    match tg (transcript s) (ackCall q) with
    | None =>
        (Tg.Rejected TelegramError,
         {| world := world s; transcript := transcript s ++ [ackCall q] |})
    | Some _ =>
        match tg (transcript s ++ [ackCall q]) (loadingCall chatId) with
        | None =>
            (Tg.Rejected TelegramError,
             {| world := withMessage (loadingMessage chatId) (world s);
                transcript := transcript s ++ [ackCall q; loadingCall chatId] |})
        | Some mid =>
            let rw := fastApi net env (detailUrl env type id)
                        (withMessage (loadingMessage chatId) (world s)) in
            let t3 := transcript s ++ [ackCall q; loadingCall chatId;
                                       deleteMessage chatId mid] in
            match rw.1 with
            | Rejected _ =>
                let failed := sendMessage (plainReply chatId msgFailed) in
                let s5 := {| world := withMessage (plainReply chatId msgFailed) rw.2;
                             transcript := t3 ++ [failed] |} in
                match tg t3 failed with
                | Some _ => (Tg.Fulfilled tt, s5)
                | None => (Tg.Rejected TelegramError, s5)
                end
            | Fulfilled res =>
                match data res with
                | None =>
                    (Tg.Rejected (JsError TypeError),
                     {| world := rw.2; transcript := t3 |})
                | Some b =>
                    (Tg.Fulfilled tt,
                     {| world := rw.2;
                        transcript :=
                          t3 ++ [sendPhoto chatId (photoUrl (detailOf b))
                                   (caption (detailOf b)) (Some (u "Markdown"))
                                   [watchRow type id]] |})
                end
            end
        end
    end.
Proof.
  intros (Hc & Hd & Hs). cbv zeta.
  unfold onCallbackQuery, showSkeleton, ackCall, loadingCall, loadingMessage,
    plainReply.
  unfold Tg.function, Tg.bind, Tg.try_catch, Tg.await, Tg.defined, Tg.return_,
    Tg.catch_ignore, start, onWorld, bot.
  rewrite Hc, Hd, Hs. cbn [negb].
  destruct (tg (transcript s) _) as [n|]; [|reflexivity].
  cbn [transcript logCall].
  destruct (tg (transcript s ++ _) (sendMessage _)) as [mid|];
    [|unfold logCall; cbn [world transcript]; by rewrite <- app_assoc].
  cbn [remove world transcript logCall].
  change (@bot_sendMessage unit ?m ?w).2 with (withMessage m w).
  destruct (fastApi net env _ _) as [[res|e] w3]; cbn [fst snd world transcript].
  - destruct (tg _ (deleteMessage chatId mid));
      (destruct (data res) as [b|]);
      cbn [fst snd fmap option_fmap option_map world transcript logCall];
      try destruct (tg _ (sendPhoto _ _ _ _ _));
      unfold logCall; cbn [fst snd world transcript];
      rewrite <- ?app_assoc; reflexivity.
  - destruct (tg _ (deleteMessage chatId mid));
      cbn [fst snd world transcript logCall];
      rewrite <- ?app_assoc; cbn [app];
      destruct (tg _ (sendMessage _)); unfold logCall;
      cbn [fst snd world transcript]; rewrite <- ?app_assoc; reflexivity.
Qed.

(** X20. A button press whose data does not start with [select_] is
    dropped without any effect; one that comes without data or without
    its message makes the handler fail at once, also without any
    effect. *)
Theorem onCallbackQuery_other_data tg net env detailOf q s :
  match Query.message_chat_id q, Query.data q with
  | Some _, Some d =>
      startsWith d (u "select_") = false ->
      onCallbackQuery tg net env detailOf q s = (Tg.Fulfilled tt, s)
  | _, _ =>
      onCallbackQuery tg net env detailOf q s
      = (Tg.Rejected (JsError TypeError), s)
  end.
Proof.
  unfold onCallbackQuery, Tg.function, Tg.bind, Tg.defined, Tg.return_.
  destruct (Query.message_chat_id q) as [chatId|]; [|reflexivity].
  destruct (Query.data q) as [d|]; [|reflexivity].
  by intros ->.
Qed.

Lemma onCallbackQuery_other_data_witness :
  onCallbackQuery goodTransport liveNetwork sampleEnv sampleDetailOf
    (Query.mk (u "q2") (Some (u "page_2")) (Some 42%Z)) emptySession
  = (Tg.Fulfilled tt, emptySession).
Proof.
  apply (onCallbackQuery_other_data goodTransport liveNetwork sampleEnv
           sampleDetailOf (Query.mk (u "q2") (Some (u "page_2")) (Some 42%Z))
           emptySession).
  reflexivity.
Defined.

(** X21. When the chat service rejects the acknowledgement of the button
    press, or the loading message, the handler fails before it fetches
    anything: no request is issued and the cache is untouched. *)
Theorem onCallbackQuery_transport_down tg net env detailOf q s chatId d :
  isSelection q chatId d ->
  tg (transcript s) (ackCall q) = None \/
  tg (transcript s ++ [ackCall q]) (loadingCall chatId) = None ->
  let '(r, s') := onCallbackQuery tg net env detailOf q s in
  r = Tg.Rejected TelegramError /\
  requests (world s') = requests (world s) /\
  CACHE (world s') = CACHE (world s) /\
  (forall c, c ∈ transcript s' -> c ∈ transcript s \/ c = ackCall q \/
                                  c = loadingCall chatId).
Proof.
  intros Hsel Hdown.
  rewrite (onCallbackQuery_run tg net env detailOf q s chatId d Hsel).
  cbv zeta.
  destruct (tg (transcript s) (ackCall q)) as [n|].
  - destruct Hdown as [Hdown|Hdown]; [discriminate|]. rewrite Hdown.
    cbn. repeat split. intros c.
    rewrite elem_of_app, !elem_of_cons, elem_of_nil. tauto.
  - cbn. repeat split. intros c. rewrite elem_of_app, list_elem_of_singleton.
    tauto.
Qed.

Lemma sampleQuery_selection : isSelection sampleQuery 42 (u "select_movie_603").
Proof. repeat split. Qed.

Lemma onCallbackQuery_transport_down_witness :
  let '(r, s') := onCallbackQuery downTransport liveNetwork sampleEnv
                    sampleDetailOf sampleQuery emptySession in
  r = Tg.Rejected TelegramError /\
  requests (world s') = [] /\
  CACHE (world s') = ∅ /\
  (forall c, c ∈ transcript s' -> c ∈ [] \/ c = ackCall sampleQuery \/
                                  c = loadingCall 42).
Proof.
  apply (onCallbackQuery_transport_down downTransport liveNetwork sampleEnv
           sampleDetailOf sampleQuery emptySession 42 (u "select_movie_603")
           sampleQuery_selection).
  by left.
Defined.

(** X22. The loading message is always taken away.  Once the chat
    service has accepted the acknowledgement and the loading message,
    the handler deletes that very message (by the id the service gave
    it) exactly once, after the fetch and before anything else is sent,
    whether the fetch succeeds or fails and whether the deletion itself
    succeeds or fails; after it at most one more call is made, the
    failure notice or the photo card. *)
Theorem onCallbackQuery_removes_skeleton tg net env detailOf q s chatId d n mid :
  isSelection q chatId d ->
  tg (transcript s) (ackCall q) = Some n ->
  tg (transcript s ++ [ackCall q]) (loadingCall chatId) = Some mid ->
  exists final,
    transcript (onCallbackQuery tg net env detailOf q s).2
    = transcript s
      ++ [ackCall q; loadingCall chatId; deleteMessage chatId mid] ++ final /\
    length final <= 1 /\
    forall c, c ∈ final ->
      c = sendMessage (plainReply chatId msgFailed) \/
      exists photo text,
        c = sendPhoto chatId photo text (Some (u "Markdown"))
              [watchRow (split 95 d !! 1%nat) (split 95 d !! 2%nat)].
Proof.
  intros Hsel Hack Hload.
  rewrite (onCallbackQuery_run tg net env detailOf q s chatId d Hsel).
  cbv zeta. rewrite Hack, Hload.
  destruct (fastApi net env _ _) as [[res|e] w3]; cbn [fst snd].
  - destruct (data res) as [b|]; cbn [snd transcript].
    + eexists [_]. split; [by rewrite <- !app_assoc|]. split; [cbn; lia|].
      intros c Hc. apply list_elem_of_singleton in Hc as ->. right.
      by eexists _, _.
    + exists []. split; [by rewrite app_nil_r|]. split; [cbn; lia|].
      intros c Hc. by apply elem_of_nil in Hc.
  - eexists [_].
    split; [destruct (tg _ (sendMessage (plainReply _ _)));
            cbn [snd transcript]; by rewrite <- !app_assoc|].
    split; [cbn; lia|].
    intros c Hc. apply list_elem_of_singleton in Hc as ->. by left.
Qed.

Lemma onCallbackQuery_removes_skeleton_witness :
  exists final,
    transcript (onCallbackQuery noDeleteTransport deadNetwork sampleEnv
                  sampleDetailOf sampleQuery emptySession).2
    = [ackCall sampleQuery; loadingCall 42; deleteMessage 42 77] ++ final /\
    length final <= 1 /\
    forall c, c ∈ final ->
      c = sendMessage (plainReply 42 msgFailed) \/
      exists photo text,
        c = sendPhoto 42 photo text (Some (u "Markdown"))
              [watchRow (Some (u "movie")) (Some (u "603"))].
Proof.
  apply (onCallbackQuery_removes_skeleton noDeleteTransport deadNetwork sampleEnv
           sampleDetailOf sampleQuery emptySession 42 (u "select_movie_603")
           77 77 sampleQuery_selection eq_refl eq_refl).
Defined.

(** X23. When the detail cannot be fetched, the handler takes the
    loading message away and then sends the failure notice as its last
    call; it is fulfilled when the chat service accepts that notice and
    rejected when it does not. *)
Theorem onCallbackQuery_fetch_failure
    tg net env detailOf q s chatId d n mid e w3 :
  isSelection q chatId d ->
  tg (transcript s) (ackCall q) = Some n ->
  tg (transcript s ++ [ackCall q]) (loadingCall chatId) = Some mid ->
  fastApi net env (detailUrl env (split 95 d !! 1%nat) (split 95 d !! 2%nat))
    (withMessage (loadingMessage chatId) (world s)) = (Rejected e, w3) ->
  let notice :=
    sendMessage {| chat := chatId;
                   body := [0x26A0; 0xFE0F]%N ++ u " Failed to load details";
                   parse_mode := None; inline_keyboard := None |} in
  let before :=
    transcript s ++ [ackCall q; loadingCall chatId; deleteMessage chatId mid] in
  let '(r, s') := onCallbackQuery tg net env detailOf q s in
  transcript s' = before ++ [notice] /\
  r = match tg before notice with
      | Some _ => Tg.Fulfilled tt
      | None => Tg.Rejected TelegramError
      end /\
  CACHE (world s') = CACHE w3 /\ requests (world s') = requests w3.
Proof.
  intros Hsel Hack Hload Hf.
  rewrite (onCallbackQuery_run tg net env detailOf q s chatId d Hsel).
  cbv zeta. rewrite Hack, Hload, Hf. cbn [fst snd].
  change (plainReply chatId msgFailed)
    with {| chat := chatId;
            body := [0x26A0; 0xFE0F]%N ++ u " Failed to load details";
            parse_mode := None; inline_keyboard := None |}.
  by destruct (tg _ (sendMessage _)).
Qed.

Lemma onCallbackQuery_fetch_failure_witness :
  let '(r, s') := onCallbackQuery goodTransport deadNetwork sampleEnv
                    sampleDetailOf sampleQuery emptySession in
  transcript s' =
    [ackCall sampleQuery; loadingCall 42; deleteMessage 42 77;
     sendMessage {| chat := 42;
                    body := [0x26A0; 0xFE0F]%N ++ u " Failed to load details";
                    parse_mode := None; inline_keyboard := None |}] /\
  r = Tg.Fulfilled tt /\
  CACHE (world s') = ∅ /\
  length (requests (world s')) = 2.
Proof.
  pose proof (fastApi_absent deadNetwork sampleEnv
                (detailUrl sampleEnv (Some (u "movie")) (Some (u "603")))
                (withMessage (loadingMessage 42) emptyWorld) (lookup_empty _))
    as Hf.
  cbn [deadNetwork reply elapsed] in Hf. cbv zeta in Hf.
  change (encodeURIComponent (detailUrl sampleEnv (Some (u "movie")) (Some (u "603"))))
    with (Some (u "https%3A%2F%2Fapi.themoviedb.org%2F3%2Fmovie%2F603%3Fapi_key%3DK"))
    in Hf.
  cbv iota in Hf.
  pose proof (onCallbackQuery_fetch_failure goodTransport deadNetwork sampleEnv
                sampleDetailOf sampleQuery emptySession 42 (u "select_movie_603")
                77 77 AxiosError _ sampleQuery_selection eq_refl eq_refl Hf) as H.
  cbv zeta in H.
  destruct (onCallbackQuery goodTransport deadNetwork sampleEnv sampleDetailOf
              sampleQuery emptySession) as [r s'].
  destruct H as (Ht & Hr & Hc & Hq). rewrite Ht, Hr, Hc, Hq.
  repeat split.
Defined.

Lemma split_tokenSpec kind id :
  95%N ∉ kind -> 95%N ∉ id ->
  split 95 (tokenSpec kind id) = [u "select"; kind; id].
Proof.
  intros Hk Hi. unfold tokenSpec.
  change (u "select_" ++ kind ++ u "_" ++ id)
    with (u "select" ++ 95%N :: (kind ++ 95%N :: id)).
  by rewrite (split_app _ _ _ no_underscore_select), (split_app _ _ _ Hk),
    (split_no_sep _ _ Hi).
Qed.

(** X24. From the token to the card.  A press on a button whose token is
    [select_<kind>_<id>] (kind and id without underscore) fetches the
    detail URL [/<kind>/<id>]; when that succeeds with a body, the
    handler is fulfilled and its last call sends the photo card, with
    the poster and the caption of that body and three links that all end
    in [/<kind>/<id>]: two watch mirrors and one download link. *)
Theorem onCallbackQuery_card
    tg net env detailOf q s chatId kind id n mid res b w3 :
  Query.message_chat_id q = Some chatId ->
  Query.data q = Some (u "select_" ++ kind ++ u "_" ++ id) ->
  95%N ∉ kind -> 95%N ∉ id ->
  tg (transcript s) (ackCall q) = Some n ->
  tg (transcript s ++ [ackCall q]) (loadingCall chatId) = Some mid ->
  fastApi net env
    (u "https://api.themoviedb.org/3/" ++ kind ++ u "/" ++ id ++ u "?api_key="
     ++ template (TMDB_API_KEY env))
    (withMessage (loadingMessage chatId) (world s)) = (Fulfilled res, w3) ->
  data res = Some b ->
  let '(r, s') := onCallbackQuery tg net env detailOf q s in
  r = Tg.Fulfilled tt /\
  world s' = w3 /\
  exists row,
    transcript s'
    = transcript s
      ++ [ackCall q; loadingCall chatId; deleteMessage chatId mid;
          sendPhoto chatId
            (u "https://image.tmdb.org/t/p/w500"
             ++ template (Detail.poster_path (detailOf b)))
            (caption (detailOf b)) (Some (u "Markdown")) [row]] /\
    url <$> row
    = [ Some (u "https://cineflow1.vercel.app/" ++ kind ++ u "/" ++ id);
        Some (u "https://cineflow-rose.vercel.app/" ++ kind ++ u "/" ++ id);
        Some (u "https://cineflow1.vercel.app/download/" ++ kind ++ u "/" ++ id) ].
Proof.
  intros Hc Hd Hk Hi Hack Hload Hf Hb.
  assert (Hsel : isSelection q chatId (tokenSpec kind id)).
  { repeat split; [done..|]. unfold tokenSpec. apply startsWith_app. }
  rewrite (onCallbackQuery_run tg net env detailOf q s chatId _ Hsel).
  cbv zeta. rewrite Hack, Hload, (split_tokenSpec kind id Hk Hi).
  cbn [lookup list_lookup]. unfold detailUrl. cbn [template].
  rewrite Hf. cbn [fst snd]. rewrite Hb.
  split; [done|]. split; [done|].
  exists (watchRow (Some kind) (Some id)). cbn [transcript].
  split; [by rewrite <- !app_assoc|]. reflexivity.
Qed.

Lemma detailFetch_sample :
  fastApi detailNetwork sampleEnv
    (u "https://api.themoviedb.org/3/" ++ u "movie" ++ u "/" ++ u "603"
     ++ u "?api_key=" ++ u "K")
    (withMessage (loadingMessage 42) emptyWorld)
  = (Fulfilled detailResponse,
     (fastApi detailNetwork sampleEnv sampleUrl
        (withMessage (loadingMessage 42) emptyWorld)).2).
Proof.
  change (u "https://api.themoviedb.org/3/" ++ u "movie" ++ u "/" ++ u "603"
          ++ u "?api_key=" ++ u "K") with sampleUrl.
  by rewrite (fastApi_absent _ _ _ _ (lookup_empty _)).
Qed.

Lemma not_in_u_movie : (95%N ∉ u "movie") /\ (95%N ∉ u "603").
Proof.
  split; vm_compute; intros H;
    repeat (apply elem_of_cons in H as [H|H]; [discriminate H|]);
    by apply elem_of_nil in H.
Qed.

Lemma onCallbackQuery_card_witness :
  let '(r, s') := onCallbackQuery goodTransport detailNetwork sampleEnv
                    sampleDetailOf sampleQuery emptySession in
  r = Tg.Fulfilled tt /\
  exists row,
    transcript s'
    = [ackCall sampleQuery; loadingCall 42; deleteMessage 42 77;
       sendPhoto 42 (u "https://image.tmdb.org/t/p/w500/matrix.jpg")
         (caption matrixDetail) (Some (u "Markdown")) [row]] /\
    url <$> row
    = [ Some (u "https://cineflow1.vercel.app/movie/603");
        Some (u "https://cineflow-rose.vercel.app/movie/603");
        Some (u "https://cineflow1.vercel.app/download/movie/603") ].
Proof.
  destruct not_in_u_movie as [Hk Hi].
  pose proof (onCallbackQuery_card goodTransport detailNetwork sampleEnv
                sampleDetailOf sampleQuery emptySession 42 (u "movie") (u "603")
                77 77 detailResponse {| results := None |} _
                eq_refl eq_refl Hk Hi eq_refl eq_refl detailFetch_sample eq_refl)
    as H.
  destruct (onCallbackQuery goodTransport detailNetwork sampleEnv sampleDetailOf
              sampleQuery emptySession) as [r s'].
  destruct H as (Hr & _ & row & Ht & Hu). split; [exact Hr|].
  exists row. split; [exact Ht|exact Hu].
Defined.

Example caption_matrix :
  caption matrixDetail
  = astral 0x1F3AC ++ u " *The Matrix* (1999)" ++ [10%N]
    ++ [0x2B50%N] ++ u " 8.2" ++ [10; 10]%N ++ u "A hacker learns the truth.".
Proof. reflexivity. Qed.
